(** * Battle lifecycle coordinator and vote tally of [backend/server.py]

    A shallow embedding of the user-battle handlers ([create_user_battle],
    [accept_battle], [decline_battle], [upload_battle_submission],
    [vote_battle], [get_battle_results_internal]) over an explicit model
    of the tables they read and write, followed by the properties of the
    lifecycle and of the tally.

    Conventions of the embedding:
    - a table keyed by its primary key is a [gmap]; a table read back as a
      list of rows is a [list];
    - a handler is a function from the store to an outcome and the store it
      leaves behind; [Raise] carries the [HTTPException] of the source;
    - a timestamp is a number of microseconds (the resolution of Python's
      [datetime]); one clock reading is taken per handler call, where the
      source reads the clock at each use, so that two timestamps of one
      call may differ in the source by the time the call takes;
    - a string is the sequence of its UTF-8 bytes;
    - a Python [set] is a [gset]; [list(s)] is [elements s], the order of
      which is as unspecified as Python's. *)

From Stdlib Require Import ZArith Floats Ascii.
From stdpp Require Import gmap strings list sorting.

Local Open Scope Z_scope.

(** A decimal float literal stands, as in Python, for the binary64 number
    nearest to it. *)
#[local] Set Warnings "-inexact-float".

(** ** Rows and tables *)

Inductive Status := INVITED | UPLOADING | LIVE | ENDED | CANCELLED.

#[global] Instance Status_eq_dec : EqDecision Status.
Proof. solve_decision. Defined.

Record BattleRow := {
  creator_id : string;
  title : string;
  description : option string;
  mode : string;
  status : Status;
  accept_deadline : option Z;
  participant_ids : list string;
  invited_user_ids : list string;
  accepted_user_ids : list string;
  start_time : option Z;
  end_time : option Z;
  vote_counts : option (gmap string Z);
  created_at : Z
}.

Record SubmissionRow := {
  sub_battle_id : string;
  sub_user_id : string;
  media_url : string;
  sub_created_at : Z
}.

Record VoteRow := {
  vote_battle_id : string;
  vote_user_id : string;
  choice : string;
  vote_created_at : Z
}.

Record NotificationRow := {
  n_user_id : string;
  n_title : string;
  n_message : string;
  n_type : string;
  n_reference_id : option string;
  n_is_read : bool;
  n_created_at : Z
}.

Record Store := {
  battles : gmap string BattleRow;
  battle_submissions : list SubmissionRow;
  votes : list VoteRow;
  notifications : list NotificationRow
}.

Definition empty_store : Store :=
  {| battles := ∅; battle_submissions := []; votes := []; notifications := [] |}.

(** ** Outcomes *)

Record HTTPException := { status_code : Z; detail : string }.

Inductive Outcome (A : Type) :=
  | Ok (a : A)
  | Raise (e : HTTPException).
Arguments Ok {A} a.
Arguments Raise {A} e.

(** The error kinds of the specification, as the exceptions the handlers
    raise for them. *)
Definition NotFound : HTTPException :=
  {| status_code := 404; detail := "Battle not found" |}.
Definition ExpiredWindow : HTTPException :=
  {| status_code := 400; detail := "Acceptance window expired" |}.
Definition Forbidden : HTTPException :=
  {| status_code := 403; detail := "Not invited" |}.
Definition UploadForbidden : HTTPException :=
  {| status_code := 403; detail := "Not allowed to upload" |}.
Definition MediaRequired : HTTPException :=
  {| status_code := 400; detail := "media_url required" |}.
Definition AlreadyVoted : HTTPException :=
  {| status_code := 400; detail := "User has already voted on this battle" |}.
Definition VoteFailed : HTTPException :=
  {| status_code := 500; detail := "Failed to vote on battle" |}.
Definition InsertFailed : HTTPException :=
  {| status_code := 500; detail := "User battle flow not enabled. Run DB migration." |}.
(** The 422 answer to a payload the validators reject; its detail stands
    for the list of their messages. *)
Definition ValidationError (errors : list string) : HTTPException :=
  {| status_code := 422; detail := String.concat "; " errors |}.

(** ** Store primitives *)

(** [table("battles").update(...).eq("id", battle_id)] *)
Definition update_battle (battle_id : string) (f : BattleRow → BattleRow)
    (s : Store) : Store :=
  {| battles := alter f battle_id (battles s);
     battle_submissions := battle_submissions s;
     votes := votes s;
     notifications := notifications s |}.

Definition set_status (st : Status) (b : BattleRow) : BattleRow :=
  {| creator_id := creator_id b; title := title b;
     description := description b; mode := mode b;
     status := st;
     accept_deadline := accept_deadline b;
     participant_ids := participant_ids b;
     invited_user_ids := invited_user_ids b;
     accepted_user_ids := accepted_user_ids b;
     start_time := start_time b; end_time := end_time b;
     vote_counts := vote_counts b; created_at := created_at b |}.

Definition set_accepted (acc : list string) (st : Status) (b : BattleRow)
    : BattleRow :=
  {| creator_id := creator_id b; title := title b;
     description := description b; mode := mode b;
     status := st;
     accept_deadline := accept_deadline b;
     participant_ids := participant_ids b;
     invited_user_ids := invited_user_ids b;
     accepted_user_ids := acc;
     start_time := start_time b; end_time := end_time b;
     vote_counts := vote_counts b; created_at := created_at b |}.

Definition set_live (st : Status) (t_start t_end : Z) (b : BattleRow)
    : BattleRow :=
  {| creator_id := creator_id b; title := title b;
     description := description b; mode := mode b;
     status := st;
     accept_deadline := accept_deadline b;
     participant_ids := participant_ids b;
     invited_user_ids := invited_user_ids b;
     accepted_user_ids := accepted_user_ids b;
     start_time := Some t_start; end_time := Some t_end;
     vote_counts := vote_counts b; created_at := created_at b |}.

Definition set_vote_counts (c : gmap string Z) (b : BattleRow) : BattleRow :=
  {| creator_id := creator_id b; title := title b;
     description := description b; mode := mode b;
     status := status b;
     accept_deadline := accept_deadline b;
     participant_ids := participant_ids b;
     invited_user_ids := invited_user_ids b;
     accepted_user_ids := accepted_user_ids b;
     start_time := start_time b; end_time := end_time b;
     vote_counts := Some c; created_at := created_at b |}.

(** [timedelta(hours=h)] in microseconds. *)
Definition timedelta_hours (h : Z) : Z := h * 3600 * 1000000.

(** [notify_user]: the row is appended to [notifications]; a failure of
    the insert is swallowed by the source and never reaches the caller. *)
Definition notify_user (now : Z) (user_id ttl message ntype : string)
    (reference_id : option string) (s : Store) : Store :=
  {| battles := battles s;
     battle_submissions := battle_submissions s;
     votes := votes s;
     notifications := notifications s ++
       [ {| n_user_id := user_id; n_title := ttl; n_message := message;
            n_type := ntype; n_reference_id := reference_id;
            n_is_read := false; n_created_at := now |} ] |}.

(** [tag_from_user] on the [dict] that [get_current_user] returns. *)
Definition tag_from_user (uid : string) : string := "@" +:+ uid.

(** [for x in xs: notify_user(x, ...)] *)
Definition notify_each (now : Z) (uids : list string)
    (ttl message ntype : string) (reference_id : option string)
    (s : Store) : Store :=
  foldl (λ st u, notify_user now u ttl message ntype reference_id st) s uids.

(** ** Payload validation: [UserBattleCreate] *)

Record UserBattleCreate := {
  p_title : string;
  p_description : option string;
  p_mode : string;
  p_invited_user_ids : list string;
  p_visibility : option string;
  p_tags : option (list string)
}.

(** A validator returns the value it accepts, or the message of the
    [ValueError] it raises. *)
Definition validate_mode (v : string) : string + string :=
  if decide (v ∉ ["1v1"; "multi"]) then inr "mode must be 1v1 or multi"
  else inl v.

(** [values] holds the fields validated so far: [values.get('mode')] is
    [None] when [validate_mode] has rejected the mode. In the [else]
    branch the body of the size test is [pass]. *)
Definition validate_invites (v : list string) (values_mode : option string)
    : list string + string :=
  if decide (values_mode = Some "1v1") then
    if decide (length v ≠ 1%nat)
    then inr "1v1 battles require exactly one invited user"
    else inl v
  else
    if (length v <? 2)%nat || (3 <? length v)%nat
    then (* pass *) inl v
    else inl v.

(** The messages of the validators that rejected the payload, in field
    order; the payload is accepted when there is none. *)
Definition UserBattleCreate_errors (p : UserBattleCreate) : list string :=
  let m := validate_mode (p_mode p) in
  let values_mode := match m with inl v => Some v | inr _ => None end in
  match m with inl _ => [] | inr e => [e] end ++
  match validate_invites (p_invited_user_ids p) values_mode with
  | inl _ => []
  | inr e => [e]
  end.

(** ** The handlers *)

Inductive Response :=
  | BattleCreated (battle_id : string) (row : BattleRow)
  | Accepted
  | Declined
  | Uploaded
  | Voted (row : VoteRow).

Definition Handler := Store → Outcome Response * Store.

Definition _load_acceptance_lists (battle_id : string) (s : Store)
    : option BattleRow :=
  battles s !! battle_id.

Definition _threshold_met (mode : string) (accepted_count : nat) : bool :=
  (bool_decide (mode = "1v1") && (1 <=? accepted_count)%nat)
  || (bool_decide (mode = "multi") && (2 <=? accepted_count)%nat).

Section Schema.

(** The value a new [battles] row takes in the column [vote_counts], which
    [create_user_battle] does not set: the column default of the schema,
    [None] for SQL NULL. *)
Variable vote_counts_default : option (gmap string Z).

(** [new_id] is the identifier [uuid.uuid4()] draws. An insert under an
    identifier already present is refused by the table. *)
Definition create_user_battle (now : Z) (new_id creator : string)
    (payload : UserBattleCreate) : Handler := λ s,
  match UserBattleCreate_errors payload with
  | _ :: _ as errors => (Raise (ValidationError errors), s)
  | [] =>
    let record :=
      {| creator_id := creator;
         title := p_title payload;
         description := p_description payload;
         mode := p_mode payload;
         status := INVITED;
         accept_deadline := Some (now + timedelta_hours 2);
         participant_ids := [creator];
         invited_user_ids := p_invited_user_ids payload;
         accepted_user_ids := [];
         start_time := None; end_time := None;
         vote_counts := vote_counts_default;
         created_at := now |} in
    match battles s !! new_id with
    | Some _ => (Raise InsertFailed, s)
    | None =>
      let s1 :=
        {| battles := <[new_id := record]> (battles s);
           battle_submissions := battle_submissions s;
           votes := votes s;
           notifications := notifications s |} in
      let creator_name := tag_from_user creator in
      let s2 :=
        notify_each now (p_invited_user_ids payload)
          (creator_name +:+ " challenged you.")
          "Accept within 2 hours to join." "challenge_sent" (Some new_id) s1 in
      (Ok (BattleCreated new_id record), s2)
    end
  end.

(** [now > accept_deadline], after the test that the deadline is set. *)
Definition deadline_passed (now : Z) (deadline : option Z) : bool :=
  match deadline with
  | Some d => d <? now
  | None => false
  end.

Definition accept_battle (now : Z) (battle_id uid : string) : Handler := λ s,
  match _load_acceptance_lists battle_id s with
  | None => (Raise NotFound, s)
  | Some data =>
    if deadline_passed now (accept_deadline data) then
      let s1 := update_battle battle_id (set_status CANCELLED) s in
      let s2 :=
        notify_user now (creator_id data) "Battle cancelled."
          "Acceptance requirement not met in 2 hours." "battle_result"
          (Some battle_id) s1 in
      (Raise ExpiredWindow, s2)
    else
      let invited : gset string := list_to_set (invited_user_ids data) in
      let accepted : gset string := list_to_set (accepted_user_ids data) in
      if decide (uid ∉ invited) then (Raise Forbidden, s)
      else if decide (uid ∈ accepted) then (Ok Accepted, s)
      else
        let accepted : gset string := accepted ∪ {[uid]} in
        let s1 :=
          update_battle battle_id (set_accepted (elements accepted) INVITED) s in
        let accepter := tag_from_user uid in
        let s2 :=
          notify_user now (creator_id data)
            (accepter +:+ " accepted your battle.")
            "Upload your photo to start." "challenge_accepted"
            (Some battle_id) s1 in
        let s3 :=
          foldl (λ st aid,
                   if decide (aid ≠ creator_id data ∧ aid ≠ uid)
                   then notify_user now aid (accepter +:+ " joined the battle.")
                          "Upload your photo to start." "challenge_accepted"
                          (Some battle_id) st
                   else st)
                s2 (elements accepted) in
        if _threshold_met (mode data) (size accepted) then
          let s4 := update_battle battle_id (set_status UPLOADING) s3 in
          let participants := elements accepted ++ [creator_id data] in
          let s5 :=
            notify_each now participants "Battle is ready to upload."
              "Upload your image to begin." "battle_started"
              (Some battle_id) s4 in
          (Ok Accepted, s5)
        else (Ok Accepted, s3)
  end.

Definition decline_battle (battle_id uid : string) : Handler := λ s,
  match _load_acceptance_lists battle_id s with
  | None => (Raise NotFound, s)
  | Some data =>
    let invited : gset string := list_to_set (invited_user_ids data) in
    if decide (uid ∉ invited) then (Raise Forbidden, s)
    else (Ok Declined, s)
  end.

(** Modelled from the spec: the conflict target of
    [table("battle_submissions").upsert], which is the key of a table
    whose schema is not part of the sources. The specification keys a
    submission by (battle_id, user_id): a row with the same pair is
    replaced in place, any other is appended. *)
Fixpoint upsert_submission (row : SubmissionRow) (rows : list SubmissionRow)
    : list SubmissionRow :=
  match rows with
  | [] => [row]
  | r :: rest =>
    if decide (sub_battle_id r = sub_battle_id row
               ∧ sub_user_id r = sub_user_id row)
    then row :: rest
    else r :: upsert_submission row rest
  end.

(** The rows [select("id,user_id").eq("battle_id", battle_id)] returns. *)
Definition submissions_of (battle_id : string) (s : Store)
    : list SubmissionRow :=
  filter (λ r, sub_battle_id r = battle_id) (battle_submissions s).

(** [payload.get("media_url")] is [None] when the key is absent; the empty
    string is as falsy as [None]. The source reads the clock once for
    [start_time] and once more for [end_time]; both are [now] here. *)
Definition upload_battle_submission (now : Z) (battle_id uid : string)
    (payload_media_url : option string) : Handler := λ s,
  match _load_acceptance_lists battle_id s with
  | None => (Raise NotFound, s)
  | Some data =>
    let creator := creator_id data in
    let accepted : gset string := list_to_set (accepted_user_ids data) in
    if decide (uid ≠ creator ∧ uid ∉ accepted) then (Raise UploadForbidden, s)
    else
      match payload_media_url with
      | None | Some "" => (Raise MediaRequired, s)
      | Some url =>
        let s1 :=
          {| battles := battles s;
             battle_submissions :=
               upsert_submission
                 {| sub_battle_id := battle_id; sub_user_id := uid;
                    media_url := url; sub_created_at := now |}
                 (battle_submissions s);
             votes := votes s;
             notifications := notifications s |} in
        let required := (size accepted + 1)%nat in
        let subs := submissions_of battle_id s1 in
        let unique_uploaders :=
          size (list_to_set (sub_user_id <$> subs) : gset string) in
        if (required <=? unique_uploaders)%nat then
          let s2 :=
            update_battle battle_id
              (set_live LIVE now (now + timedelta_hours 24)) s1 in
          let s3 :=
            notify_each now (elements accepted ++ [creator])
              "Battle is LIVE for 24 hours." "Share to get votes!"
              "battle_started" (Some battle_id) s2 in
          (Ok Uploaded, s3)
        else (Ok Uploaded, s1)
      end
  end.

(** The rows [select("*").eq("battle_id", ..).eq("user_id", ..)] returns. *)
Definition existing_vote (battle_id uid : string) (s : Store) : list VoteRow :=
  filter (λ v, vote_battle_id v = battle_id ∧ vote_user_id v = uid) (votes s).

(** [vote_data] is the request body, of which the handler reads the key
    [choice]. The vote is inserted before the battle row is read: when the
    row or its [vote_counts] is missing, the handler ends in the generic
    failure with the vote already stored. *)
Definition vote_battle (now : Z) (battle_id uid : string)
    (vote_choice : string) : Handler := λ s,
  match existing_vote battle_id uid s with
  | _ :: _ => (Raise AlreadyVoted, s)
  | [] =>
    let vote_data :=
      {| vote_battle_id := battle_id; vote_user_id := uid;
         choice := vote_choice; vote_created_at := now |} in
    let s1 :=
      {| battles := battles s;
         battle_submissions := battle_submissions s;
         votes := votes s ++ [vote_data];
         notifications := notifications s |} in
    match battles s1 !! battle_id with
    | None => (Raise VoteFailed, s1)
    | Some battle =>
      match vote_counts battle with
      | None => (Raise VoteFailed, s1)
      | Some current_counts =>
        let current_counts :=
          <[vote_choice := default 0 (current_counts !! vote_choice) + 1]>
            current_counts in
        let s2 := update_battle battle_id (set_vote_counts current_counts) s1 in
        let creator := creator_id battle in
        let s3 :=
          if decide (creator ≠ "" ∧ creator ≠ uid)
          then notify_user now creator
                 (tag_from_user uid +:+ " voted in your battle.") ""
                 "vote" (Some battle_id) s2
          else s2 in
        (Ok (Voted vote_data), s3)
      end
    end
  end.

(** ** Sequences of operations *)

Inductive Op :=
  | OpCreate (new_id creator : string) (payload : UserBattleCreate)
  | OpAccept (battle_id uid : string)
  | OpDecline (battle_id uid : string)
  | OpUpload (battle_id uid : string) (payload_media_url : option string)
  | OpVote (battle_id uid : string) (vote_choice : string).

(** One request, served at clock reading [now]. *)
Definition step (now : Z) (op : Op) : Handler :=
  match op with
  | OpCreate new_id creator payload => create_user_battle now new_id creator payload
  | OpAccept battle_id uid => accept_battle now battle_id uid
  | OpDecline battle_id uid => decline_battle battle_id uid
  | OpUpload battle_id uid m => upload_battle_submission now battle_id uid m
  | OpVote battle_id uid c => vote_battle now battle_id uid c
  end.

(** The store after a sequence of requests, each with its clock reading. *)
Definition run (ops : list (Z * Op)) (s : Store) : Store :=
  foldl (λ st '(now, op), (step now op st).2) s ops.

End Schema.

(** ** The tally: [get_battle_results_internal] *)

Record BattleResultsResponse := {
  r_battle_id : string;
  total_votes : nat;
  option_a_votes : nat;
  option_b_votes : nat;
  option_a_percentage : float;
  option_b_percentage : float
}.

(** The [float] of a Python [int]; exact below 2^53. *)
Definition float_of_nat (n : nat) : float :=
  PrimFloat.of_uint63 (Uint63.of_Z (Z.of_nat n)).

(** The integer nearest to [10 * x], ties to even, computed on the exact
    value [m * 2^e] of the binary64 number. *)
Definition nearest_tenths (m : positive) (e : Z) : Z :=
  let n := Z.pos m * 10 in
  if 0 <=? e then n * 2 ^ e
  else
    let d := 2 ^ (- e) in
    let q := n / d in
    let r := n mod d in
    if 2 * r <? d then q
    else if d <? 2 * r then q + 1
    else if Z.even q then q else q + 1.

(** [round(x, 1)] on a [float]: CPython rounds the exact decimal expansion
    of [x] to one place, ties to even, and returns the binary64 number
    nearest to that decimal, which the correctly rounded division of the
    integer number of tenths by ten yields. Zeros, infinities and NaN are
    returned as they are. *)
Definition py_round1 (x : float) : float :=
  match Prim2SF x with
  | S754_finite sign m e =>
    let tenths := PrimFloat.of_uint63 (Uint63.of_Z (nearest_tenths m e)) in
    if sign then (- (tenths / 10))%float else (tenths / 10)%float
  | _ => x
  end.

(** The rows [select("choice").eq("battle_id", battle_id)] returns. *)
Definition votes_of (battle_id : string) (s : Store) : list VoteRow :=
  filter (λ v, vote_battle_id v = battle_id) (votes s).

(** The [int] [0] of the [else] branch is the float zero that the
    [float] field of the response makes of it. *)
Definition get_battle_results_internal (battle_id : string) (s : Store)
    : BattleResultsResponse :=
  let votes := votes_of battle_id s in
  let total_votes := length votes in
  let option_a_votes := length (filter (λ v, choice v = "A") votes) in
  let option_b_votes := length (filter (λ v, choice v = "B") votes) in
  let option_a_percentage :=
    if (0 <? total_votes)%nat
    then (float_of_nat option_a_votes / float_of_nat total_votes * 100)%float
    else 0%float in
  let option_b_percentage :=
    if (0 <? total_votes)%nat
    then (float_of_nat option_b_votes / float_of_nat total_votes * 100)%float
    else 0%float in
  {| r_battle_id := battle_id;
     total_votes := total_votes;
     option_a_votes := option_a_votes;
     option_b_votes := option_b_votes;
     option_a_percentage := py_round1 option_a_percentage;
     option_b_percentage := py_round1 option_b_percentage |}.

(** * Specification-side definitions and sample scenarios *)

(** The store after a sequence of Accept calls on one battle, each with
    its clock reading and its caller. *)
Definition accepts (battle_id : string) (calls : list (Z * string))
    (s : Store) : Store :=
  foldl (λ st '(now, uid), (accept_battle now battle_id uid st).2) s calls.

(** The status the acceptances of a battle call for. *)
Definition status_for_acceptances (data : BattleRow) : Status :=
  if _threshold_met (mode data) (length (accepted_user_ids data))
  then UPLOADING else INVITED.

(** Two submission rows with the same key. *)
Definition same_key (row r : SubmissionRow) : Prop :=
  sub_battle_id r = sub_battle_id row ∧ sub_user_id r = sub_user_id row.


(** Rounding to one decimal, stated without the code's computation.
    [k] is the integer nearest to the fraction [num / den], the even one
    of the two when the fraction lies half way between them. *)
Definition nearest_ties_even (num den k : Z) : Prop :=
  Z.abs (2 * num - 2 * k * den) ≤ den
  ∧ (Z.abs (2 * num - 2 * k * den) = den → Z.even k = true).

(** Ten times the binary64 number [m * 2^e], as a fraction. *)
Definition tenths_fraction (m : positive) (e : Z) : Z * Z :=
  if 0 <=? e then (Z.pos m * 10 * 2 ^ e, 1) else (Z.pos m * 10, 2 ^ (- e)).

(** [y] is [x] rounded to one decimal: the binary64 number that the
    nearest number of tenths, divided by ten, gives; zeros, infinities and
    NaN round to themselves. *)
Definition rounded_to_one_decimal (x y : float) : Prop :=
  match Prim2SF x with
  | S754_finite sign m e =>
    ∃ k : Z,
      nearest_ties_even (tenths_fraction m e).1 (tenths_fraction m e).2 k
      ∧ y = (let tenths := PrimFloat.of_uint63 (Uint63.of_Z k) in
             if sign then (- (tenths / 10))%float else (tenths / 10)%float)
  | _ => y = x
  end.

(** The percentage in the words of the specification:
    [round(count/total * 100, 1)], and 0 when [total = 0]. *)
Definition is_percentage (count total : nat) (pct : float) : Prop :=
  if decide (total = 0%nat) then pct = 0%float
  else
    rounded_to_one_decimal
      (float_of_nat count / float_of_nat total * 100)%float pct.

(** The users with a submission for the battle. *)
Definition submitters (battle_id : string) (s : Store) : gset string :=
  list_to_set (sub_user_id <$> submissions_of battle_id s).

(** The participants who have to submit: the creator and the accepted
    users. *)
Definition required_submitters (data : BattleRow) : gset string :=
  list_to_set (accepted_user_ids data) ∪ {[creator_id data]}.

Definition sample_payload (m : string) (invited : list string)
    : UserBattleCreate :=
  {| p_title := "Sample"; p_description := None; p_mode := m;
     p_invited_user_ids := invited; p_visibility := Some "public";
     p_tags := None |}.

(** A 1v1 battle created at time 0 by "c" for "u" under the identifier
    "b", in a schema whose [vote_counts] default to the empty object. *)
Definition sample_1v1 : Store :=
  run (Some ∅) [(0, OpCreate "b" "c" (sample_payload "1v1" ["u"]))] empty_store.

Definition sample_1v1_row : BattleRow :=
  {| creator_id := "c"; title := "Sample"; description := None;
     mode := "1v1"; status := INVITED;
     accept_deadline := Some 7200000000;
     participant_ids := ["c"]; invited_user_ids := ["u"];
     accepted_user_ids := [];
     start_time := None; end_time := None;
     vote_counts := Some ∅; created_at := 0 |}.

(** The sample battle after "v" has voted "C" on it. *)
Definition sample_voted_C : Store := (vote_battle 5 "b" "v" "C" sample_1v1).2.

(** The sample battle after "v1" has voted "A" and "v2", "v3" have voted
    "B". *)
Definition sample_three_votes : Store :=
  run (Some ∅)
    [(5, OpVote "b" "v1" "A"); (6, OpVote "b" "v2" "B");
     (7, OpVote "b" "v3" "B")] sample_1v1.

(** The sample battle after "v1", "v2", "v3" have voted "A" and "v4" has
    voted "B". *)
Definition sample_four_votes : Store :=
  run (Some ∅)
    [(5, OpVote "b" "v1" "A"); (6, OpVote "b" "v2" "A");
     (7, OpVote "b" "v3" "A"); (8, OpVote "b" "v4" "B")] sample_1v1.

(** The creator "c" invites "c" to a 1v1 battle, accepts, and uploads. *)
Definition self_invited : Store :=
  run (Some ∅)
    [(0, OpCreate "b" "c" (sample_payload "1v1" ["c"]));
     (1, OpAccept "b" "c");
     (2, OpUpload "b" "c" (Some "photo.jpg"))] empty_store.

(** A multi battle with three invitees, two of whom accept; the creator
    and the two upload, and the battle is live. *)
Definition live_multi : Store :=
  run (Some ∅)
    [(0, OpCreate "b" "c" (sample_payload "multi" ["u1"; "u2"; "u3"]));
     (1, OpAccept "b" "u1");
     (2, OpAccept "b" "u2");
     (3, OpUpload "b" "c" (Some "c.jpg"));
     (4, OpUpload "b" "u1" (Some "u1.jpg"));
     (5, OpUpload "b" "u2" (Some "u2.jpg"))] empty_store.

(** A multi battle whose creator uploads before anyone has accepted. *)
Definition live_alone : Store :=
  run (Some ∅)
    [(0, OpCreate "b" "c" (sample_payload "multi" ["u1"; "u2"]));
     (1, OpUpload "b" "c" (Some "c.jpg"))] empty_store.

(** * The other parts of the server *)

(** ** The connection registry: [ConnectionManager] *)

(** A [WebSocket] object, known by its identity. *)
Definition WebSocket := positive.

Record ConnectionManager := {
  active_connections : gmap string (gset WebSocket);
  user_connections : gmap string WebSocket
}.

(** [ConnectionManager.__init__] *)
Definition new_manager : ConnectionManager :=
  {| active_connections := ∅; user_connections := ∅ |}.

(** The key [f"{battle_id}:{user_id}"] of [user_connections]. *)
Definition user_key (battle_id user_id : string) : string :=
  battle_id +:+ ":" +:+ user_id.

(** [connect], for a handshake [websocket.accept()] that succeeds. *)
Definition connect (websocket : WebSocket) (battle_id user_id : string)
    (m : ConnectionManager) : ConnectionManager :=
  let active :=
    match active_connections m !! battle_id with
    | None => <[battle_id := ∅]> (active_connections m)
    | Some _ => active_connections m
    end in
  {| active_connections := alter (λ c, c ∪ {[websocket]}) battle_id active;
     user_connections :=
       <[user_key battle_id user_id := websocket]> (user_connections m) |}.

Definition disconnect (websocket : WebSocket) (battle_id user_id : string)
    (m : ConnectionManager) : ConnectionManager :=
  let active :=
    match active_connections m !! battle_id with
    | Some c =>
      let c := c ∖ {[websocket]} in
      if decide (c = ∅) then delete battle_id (active_connections m)
      else <[battle_id := c]> (active_connections m)
    | None => active_connections m
    end in
  {| active_connections := active;
     user_connections := delete (user_key battle_id user_id) (user_connections m) |}.

Section Broadcast.

(** The message [dict] and its serialization [json.dumps]. *)
Context {Message : Type} (json_dumps : Message → string).

(** Which connections raise in [send_text]. *)
Variable send_fails : WebSocket → bool.

(** [broadcast_to_battle]: the registry it leaves, and the texts that were
    sent, in the order of the loop. *)
Definition broadcast_to_battle (battle_id : string) (message : Message)
    (m : ConnectionManager) : ConnectionManager * list (WebSocket * string) :=
  match active_connections m !! battle_id with
  | None => (m, [])
  | Some connections =>
    let message_str := json_dumps message in
    let '(sent, disconnected) :=
      foldl (λ '(sent, disconnected) connection,
               if send_fails connection
               then (sent, disconnected ++ [connection])
               else (sent ++ [(connection, message_str)], disconnected))
            ([], []) (elements connections) in
    let active :=
      foldl (λ a connection, alter (λ c, c ∖ {[connection]}) battle_id a)
            (active_connections m) disconnected in
    ({| active_connections := active;
        user_connections := user_connections m |}, sent)
  end.

End Broadcast.

(** A sequence of subscriptions and unsubscriptions. *)
Inductive RegistryOp :=
  | RegConnect (websocket : WebSocket) (battle_id user_id : string)
  | RegDisconnect (websocket : WebSocket) (battle_id user_id : string).

Definition registry_step (op : RegistryOp) (m : ConnectionManager)
    : ConnectionManager :=
  match op with
  | RegConnect ws b u => connect ws b u m
  | RegDisconnect ws b u => disconnect ws b u m
  end.

Definition registry_run (ops : list RegistryOp) (m : ConnectionManager)
    : ConnectionManager :=
  foldl (λ st op, registry_step op st) m ops.

(** No battle is registered with an empty set of connections. *)
Definition no_empty_entries (m : ConnectionManager) : Prop :=
  ∀ battle_id c, active_connections m !! battle_id = Some c → c ≠ ∅.

(** ** Direct-message room names *)

Definition DM_NAME_PREFIX : string := "dm:".

(** [sorted] on a list of [str]: Python orders strings by code point,
    which is the byte order of their UTF-8 encoding. *)
Definition str_le (x y : string) : Prop := String.leb x y = true.

#[global] Instance str_le_dec : RelDecision str_le.
Proof. intros x y. unfold str_le. apply _. Defined.

Definition py_sorted (l : list string) : list string := merge_sort str_le l.

Definition _canonical_dm_name (user_a user_b : string) : string :=
  let participants := py_sorted [user_a; user_b] in
  DM_NAME_PREFIX +:+ (participants !!! 0%nat) +:+ ":"
    +:+ (participants !!! 1%nat).

(** Whether a user identifier contains the separator of the room name. *)
Fixpoint has_colon (s : string) : bool :=
  match s with
  | EmptyString => false
  | String c rest => Ascii.eqb c ":"%char || has_colon rest
  end.

(** ** Registration: the age check of [RegisterRequest] *)

(** A calendar date, as [datetime.strptime(v, '%Y-%m-%d').date()] and
    [date.today()] give it. *)
Record date := { d_year : Z; d_month : Z; d_day : Z }.

(** [<] on pairs of integers, as Python compares tuples. *)
Definition tuple_lt (a b : Z * Z) : bool :=
  (a.1 <? b.1) || ((a.1 =? b.1) && (a.2 <? b.2)).

(** [validate_age] on a date of birth that parses, at the date [today]:
    the value it returns, or the message of its [ValueError]. A [bool]
    subtracted from an [int] counts as 0 or 1. *)
Definition validate_age (birth_date today : date) : date + string :=
  let age :=
    d_year today - d_year birth_date
    - (if tuple_lt (d_month today, d_day today)
                   (d_month birth_date, d_day birth_date)
       then 1 else 0) in
  if age <? 18 then inr "You must be at least 18 years old"
  else inl birth_date.

(** ** Who may read a battle *)

Definition _user_can_view_battle (battle : BattleRow) (user_id : string)
    : bool :=
  if bool_decide (status battle ∈ [LIVE; ENDED]) then true
  else
    let allowed_ids : gset string :=
      foldl (λ allowed ids,
               allowed ∪ list_to_set (filter (λ i, i ≠ "") ids))
            {[creator_id battle]}
            [participant_ids battle; invited_user_ids battle;
             accepted_user_ids battle] in
    bool_decide (user_id ∈ allowed_ids).

Definition NotAuthorized : HTTPException :=
  {| status_code := 403; detail := "Not authorized to view this battle" |}.

(** [get_battle] of the route [/battles/{battle_id}]; the row stands for
    the answer, which joins the creator, the participants and the votes to
    it. *)
Definition get_battle (user_id battle_id : string) (s : Store)
    : Outcome BattleRow :=
  match battles s !! battle_id with
  | None => Raise NotFound
  | Some battle =>
    if decide (user_id = "" ∨ _user_can_view_battle battle user_id = false)
    then Raise NotAuthorized
    else Ok battle
  end.

(** The users a battle involves: its creator, and the non-empty
    identifiers among its participants, invited and accepted users. *)
Definition involved (battle : BattleRow) (user_id : string) : Prop :=
  user_id = creator_id battle
  ∨ (user_id ≠ ""
     ∧ (user_id ∈ participant_ids battle
        ∨ user_id ∈ invited_user_ids battle
        ∨ user_id ∈ accepted_user_ids battle)).

(** ** The tables beside the battle flow *)

Record FollowRow := {
  follower_id : string;
  following_id : string;
  follow_created_at : Z
}.

Record LikeRow := {
  like_post_id : string;
  like_user_id : string;
  like_created_at : Z
}.

Record CommentRow := {
  c_battle_id : string;
  c_author_id : string;
  c_creator_id : string;
  c_content : string;
  c_reactions : list string;
  c_is_read : bool;
  c_is_reported : bool;
  c_created_at : Z
}.

(** The store of the battle flow together with the tables [user_follows],
    [likes] and [private_battle_comments], the last keyed by the
    identifier of the comment. *)
Record Database := {
  store : Store;
  user_follows : list FollowRow;
  likes : list LikeRow;
  private_battle_comments : gmap string CommentRow
}.

Definition with_store (f : Store → Store) (w : Database) : Database :=
  {| store := f (store w); user_follows := user_follows w;
     likes := likes w;
     private_battle_comments := private_battle_comments w |}.

Definition with_comments
    (f : gmap string CommentRow → gmap string CommentRow) (w : Database)
    : Database :=
  {| store := store w; user_follows := user_follows w; likes := likes w;
     private_battle_comments := f (private_battle_comments w) |}.

(** ** Follow and like *)

(** [follow_user]: [user_id] is the user of the route, [current] the
    caller. The answer is the value of ["following"]. *)
Definition follow_user (now : Z) (user_id current : string) (w : Database)
    : bool * Database :=
  let existing_follow :=
    filter (λ r, follower_id r = current ∧ following_id r = user_id)
      (user_follows w) in
  match existing_follow with
  | _ :: _ =>
    (false,
     {| store := store w;
        user_follows :=
          filter (λ r, ¬ (follower_id r = current ∧ following_id r = user_id))
            (user_follows w);
        likes := likes w;
        private_battle_comments := private_battle_comments w |})
  | [] =>
    let follow_data :=
      {| follower_id := current; following_id := user_id;
         follow_created_at := now |} in
    let follower_tag := tag_from_user current in
    (true,
     {| store :=
          notify_user now user_id (follower_tag +:+ " started following you.")
            "" "follow" (Some current) (store w);
        user_follows := user_follows w ++ [follow_data];
        likes := likes w;
        private_battle_comments := private_battle_comments w |})
  end.

(** [like_post]: the answer is the value of ["liked"]. *)
Definition like_post (now : Z) (post_id current : string) (w : Database)
    : bool * Database :=
  let existing_like :=
    filter (λ r, like_post_id r = post_id ∧ like_user_id r = current)
      (likes w) in
  match existing_like with
  | _ :: _ =>
    (false,
     {| store := store w; user_follows := user_follows w;
        likes :=
          filter (λ r, ¬ (like_post_id r = post_id ∧ like_user_id r = current))
            (likes w);
        private_battle_comments := private_battle_comments w |})
  | [] =>
    let like_data :=
      {| like_post_id := post_id; like_user_id := current;
         like_created_at := now |} in
    (true,
     {| store := store w; user_follows := user_follows w;
        likes := likes w ++ [like_data];
        private_battle_comments := private_battle_comments w |})
  end.

(** ** Reading notifications *)

(** The filter a category adds to the query; an unknown category, like
    none, adds nothing. *)
Definition category_filter (category : option string) (n : NotificationRow)
    : Prop :=
  if decide (category = Some "feedback") then n_type n = "private_comment"
  else if decide (category = Some "social") then
    n_type n ∈ ["follow"; "comment"; "mention"; "engagement"]
  else if decide (category = Some "battles") then
    n_type n ∈ ["challenge_sent"; "challenge_accepted"; "battle_started";
                "battle_result"; "vote"]
  else if decide (category = Some "system") then n_type n = "system"
  else if decide (category = Some "transactional") then n_type n = "payment"
  else True.

#[global] Instance category_filter_dec category n :
  Decision (category_filter category n).
Proof. unfold category_filter. repeat case_decide; apply _. Defined.

(** [order("created_at", desc=True)]; rows of equal time come in an order
    the database does not specify, here that of the sort. *)
Definition newest_first (a b : NotificationRow) : Prop :=
  n_created_at b ≤ n_created_at a.

#[global] Instance newest_first_dec : RelDecision newest_first.
Proof. intros a b. unfold newest_first. apply _. Defined.

Definition get_notifications (current : string) (category : option string)
    (s : Store) : list NotificationRow :=
  merge_sort newest_first
    (filter (category_filter category)
       (filter (λ n, n_user_id n = current) (notifications s))).

Definition mark_read (n : NotificationRow) : NotificationRow :=
  {| n_user_id := n_user_id n; n_title := n_title n;
     n_message := n_message n; n_type := n_type n;
     n_reference_id := n_reference_id n;
     n_is_read := true; n_created_at := n_created_at n |}.

(** [mark_all_read]: [update({"is_read": True}).eq("user_id", ...)]. *)
Definition mark_all_read (current : string) (s : Store) : Store :=
  {| battles := battles s;
     battle_submissions := battle_submissions s;
     votes := votes s;
     notifications :=
       (λ n, if decide (n_user_id n = current) then mark_read n else n)
         <$> notifications s |}.

(** The types of notification the category "battles" selects. *)
Definition battle_types : list string :=
  ["challenge_sent"; "challenge_accepted"; "battle_started";
   "battle_result"; "vote"].

(** Every stored notification is of one of those types. *)
Definition only_battle_notifications (s : Store) : Prop :=
  Forall (λ n, n_type n ∈ battle_types) (notifications s).

(** ** Private comments on a battle *)

Definition NoCreator : HTTPException :=
  {| status_code := 400; detail := "Battle has no creator" |}.
Definition RateLimited : HTTPException :=
  {| status_code := 429; detail := "Rate limit exceeded. Try again later." |}.
Definition CommentsDisabled : HTTPException :=
  {| status_code := 500;
     detail := "Private comments not enabled. Apply DB migration." |}.
Definition CommentNotFound : HTTPException :=
  {| status_code := 404; detail := "Not found" |}.
Definition NotAllowed : HTTPException :=
  {| status_code := 403; detail := "Not allowed" |}.
Definition UpdateCommentFailed : HTTPException :=
  {| status_code := 500; detail := "Failed to update comment" |}.
Definition DeleteCommentFailed : HTTPException :=
  {| status_code := 500; detail := "Failed to delete comment" |}.

(** The comments of one author on one battle created at [since] or
    later: the rows the rate limit counts. *)
Definition recent_comment (battle_id author : string) (since : Z)
    (kv : string * CommentRow) : Prop :=
  c_battle_id kv.2 = battle_id ∧ c_author_id kv.2 = author
  ∧ since ≤ c_created_at kv.2.

#[global] Instance recent_comment_dec battle_id author since kv :
  Decision (recent_comment battle_id author since kv).
Proof. unfold recent_comment. apply _. Defined.

(** A byte [10xxxxxx] continues a character of a UTF-8 string; every
    other byte starts one. *)
Definition continuation_byte (c : ascii) : bool :=
  match c with Ascii _ _ _ _ _ _ b6 b7 => b7 && negb b6 end.

(** [len(s)]: the number of characters, not of bytes. *)
Fixpoint py_len (s : string) : nat :=
  match s with
  | EmptyString => 0
  | String c rest =>
    if continuation_byte c then py_len rest else S (py_len rest)
  end.

(** [s[:n]]: the first [n] characters, each with all of its bytes. *)
Fixpoint py_prefix (n : nat) (s : string) : string :=
  match s with
  | EmptyString => EmptyString
  | String c rest =>
    if continuation_byte c then String c (py_prefix n rest)
    else
      match n with
      | O => EmptyString
      | S n' => String c (py_prefix n' rest)
      end
  end.

(** A content of 141 characters of two bytes each. *)
Definition sample_long_content : string :=
  String.concat "" (replicate 141 "é").

(** [send_private_comment], with [content] and [reactions] the fields of
    the validated payload and [new_id] the identifier the table gives the
    row; an insert under an identifier already present is refused. The
    count query of the rate limit is taken to succeed (the source lets
    the comment through when it raises). *)
Definition send_private_comment (now : Z)
    (new_id battle_id author content : string)
    (reactions : option (list string)) (w : Database)
    : Outcome unit * Database :=
  match battles (store w) !! battle_id with
  | None => (Raise NotFound, w)
  | Some battle =>
    let creator := creator_id battle in
    if decide (creator = "") then (Raise NoCreator, w)
    else
      let since := now - timedelta_hours 24 in
      let rate_count :=
        size (filter (recent_comment battle_id author since)
                (private_battle_comments w)) in
      if (5 <=? rate_count)%nat then (Raise RateLimited, w)
      else
        let record :=
          {| c_battle_id := battle_id; c_author_id := author;
             c_creator_id := creator; c_content := content;
             c_reactions := default [] reactions;
             c_is_read := false; c_is_reported := false;
             c_created_at := now |} in
        match private_battle_comments w !! new_id with
        | Some _ => (Raise CommentsDisabled, w)
        | None =>
          let w1 := with_comments (insert new_id record) w in
          let w2 :=
            with_store
              (notify_user now creator "Private comment on your battle"
                 (py_prefix 140 content) "private_comment"
                 (Some battle_id)) w1 in
          (Ok (), w2)
        end
  end.

(** [order("created_at", desc=True)] on comments. *)
Definition newest_comment_first (a b : string * CommentRow) : Prop :=
  c_created_at b.2 ≤ c_created_at a.2.

#[global] Instance newest_comment_first_dec : RelDecision newest_comment_first.
Proof. intros a b. unfold newest_comment_first. apply _. Defined.

(** The condition the [filter] parameter adds to the query. *)
Definition comment_filter (flt : string) (kv : string * CommentRow) : Prop :=
  if decide (flt = "unread") then c_is_read kv.2 = false
  else if decide (flt = "reported") then c_is_reported kv.2 = true
  else True.

#[global] Instance comment_filter_dec flt kv : Decision (comment_filter flt kv).
Proof. unfold comment_filter. repeat case_decide; apply _. Defined.

Definition list_private_comments (current battle_id flt : string)
    (w : Database) : Outcome (list (string * CommentRow)) :=
  match battles (store w) !! battle_id with
  | None => Raise NotFound
  | Some battle =>
    if decide (creator_id battle ≠ current) then Raise NotAllowed
    else
      Ok (merge_sort newest_comment_first
            (filter (comment_filter flt)
               (filter (λ kv, c_battle_id kv.2 = battle_id)
                  (map_to_list (private_battle_comments w)))))
  end.

Definition set_comment_read (r : CommentRow) : CommentRow :=
  {| c_battle_id := c_battle_id r; c_author_id := c_author_id r;
     c_creator_id := c_creator_id r; c_content := c_content r;
     c_reactions := c_reactions r;
     c_is_read := true; c_is_reported := c_is_reported r;
     c_created_at := c_created_at r |}.

Definition set_comment_reported (r : CommentRow) : CommentRow :=
  {| c_battle_id := c_battle_id r; c_author_id := c_author_id r;
     c_creator_id := c_creator_id r; c_content := c_content r;
     c_reactions := c_reactions r;
     c_is_read := c_is_read r; c_is_reported := true;
     c_created_at := c_created_at r |}.

(** [mark_private_comment_read]: the battle of the comment is read with
    [battle.data.get] without a test that it exists, so that a missing
    battle ends in the generic failure. *)
Definition mark_private_comment_read (current comment_id : string)
    (w : Database) : Outcome unit * Database :=
  match private_battle_comments w !! comment_id with
  | None => (Raise CommentNotFound, w)
  | Some data =>
    match battles (store w) !! c_battle_id data with
    | None => (Raise UpdateCommentFailed, w)
    | Some battle =>
      if decide (creator_id battle ≠ current) then (Raise NotAllowed, w)
      else (Ok (), with_comments (alter set_comment_read comment_id) w)
    end
  end.

(** [report_private_comment]: any caller, no lookup. *)
Definition report_private_comment (comment_id : string) (w : Database)
    : Outcome unit * Database :=
  (Ok (), with_comments (alter set_comment_reported comment_id) w).

Definition delete_private_comment (current comment_id : string)
    (w : Database) : Outcome unit * Database :=
  match private_battle_comments w !! comment_id with
  | None => (Raise CommentNotFound, w)
  | Some data =>
    match battles (store w) !! c_battle_id data with
    | None => (Raise DeleteCommentFailed, w)
    | Some battle =>
      if decide (creator_id battle ≠ current) then (Raise NotAllowed, w)
      else (Ok (), with_comments (delete comment_id) w)
    end
  end.

(** Requests on the private comments. *)
Inductive CommentOp :=
  | CSend (new_id battle_id author content : string)
      (reactions : option (list string))
  | CMarkRead (current comment_id : string)
  | CReport (comment_id : string)
  | CDelete (current comment_id : string).

Definition comment_step (now : Z) (op : CommentOp) (w : Database)
    : Outcome unit * Database :=
  match op with
  | CSend new_id battle_id author content reactions =>
    send_private_comment now new_id battle_id author content reactions w
  | CMarkRead current comment_id =>
    mark_private_comment_read current comment_id w
  | CReport comment_id => report_private_comment comment_id w
  | CDelete current comment_id => delete_private_comment current comment_id w
  end.

Definition comment_run (ops : list (Z * CommentOp)) (w : Database)
    : Database :=
  foldl (λ st '(now, op), (comment_step now op st).2) w ops.

(** The comments of one author on one battle created in the 24 hours
    that start at [t]. *)
Definition in_window (battle_id author : string) (t : Z)
    (kv : string * CommentRow) : Prop :=
  c_battle_id kv.2 = battle_id ∧ c_author_id kv.2 = author
  ∧ t ≤ c_created_at kv.2 ≤ t + timedelta_hours 24.

#[global] Instance in_window_dec battle_id author t kv :
  Decision (in_window battle_id author t kv).
Proof. unfold in_window. apply _. Defined.

(** No author has more than five comments on a battle in any 24 hours. *)
Definition rate_limited (w : Database) : Prop :=
  ∀ battle_id author t,
    (size (filter (in_window battle_id author t) (private_battle_comments w))
     ≤ 5)%nat.

(** The sample battle with no follow, like or comment yet. *)
Definition sample_database : Database :=
  {| store := sample_1v1; user_follows := []; likes := [];
     private_battle_comments := ∅ |}.

(** The row [notify_user] stores. *)
Definition notification (now : Z) (ttl message ntype : string)
    (reference_id : option string) (user_id : string) : NotificationRow :=
  {| n_user_id := user_id; n_title := ttl; n_message := message;
     n_type := ntype; n_reference_id := reference_id;
     n_is_read := false; n_created_at := now |}.

(** ** The two tallies of a battle *)

(** The counts kept on the battle rows agree with the table of votes. *)
Definition counts_agree (s : Store) : Prop :=
  ∀ battle_id battle counts c,
    battles s !! battle_id = Some battle →
    vote_counts battle = Some counts →
    default 0 (counts !! c)
    = Z.of_nat
        (length (filter (λ v, vote_battle_id v = battle_id ∧ choice v = c)
                   (votes s))).

(** Every stored vote is for a battle that exists. *)
Definition no_orphan_votes (s : Store) : Prop :=
  ∀ v, v ∈ votes s → is_Some (battles s !! vote_battle_id v).

(** A sequence of requests in which every Vote is for a battle that exists
    when it is served. *)
Fixpoint votes_on_existing (d : option (gmap string Z))
    (ops : list (Z * Op)) (s : Store) : Prop :=
  match ops with
  | [] => True
  | (now, op) :: rest =>
    match op with
    | OpVote battle_id _ _ => is_Some (battles s !! battle_id)
    | _ => True
    end
    ∧ votes_on_existing d rest (step d now op s).2
  end.

(** ** Invariants of the stored battles *)

(** Every submission is for a battle that exists, by its creator or one of
    its accepted users. *)
Definition submissions_by_participants (s : Store) : Prop :=
  ∀ r, r ∈ battle_submissions s →
    ∃ battle,
      battles s !! sub_battle_id r = Some battle
      ∧ (sub_user_id r = creator_id battle
         ∨ sub_user_id r ∈ accepted_user_ids battle).

(** No battle is ENDED; a start and an end time are set together, and a
    LIVE battle has them. *)
Definition times_well_formed (battle : BattleRow) : Prop :=
  status battle ≠ ENDED
  ∧ (status battle = LIVE → is_Some (end_time battle))
  ∧ (is_Some (start_time battle) ↔ is_Some (end_time battle)).

(** The requests that make [live_multi]. *)
Definition live_multi_ops : list (Z * Op) :=
  [(0, OpCreate "b" "c" (sample_payload "multi" ["u1"; "u2"; "u3"]));
   (1, OpAccept "b" "u1");
   (2, OpAccept "b" "u2");
   (3, OpUpload "b" "c" (Some "c.jpg"));
   (4, OpUpload "b" "u1" (Some "u1.jpg"));
   (5, OpUpload "b" "u2" (Some "u2.jpg"))].

(** The row of the battle after them. *)
Definition live_multi_row : BattleRow :=
  {| creator_id := "c"; title := "Sample"; description := None;
     mode := "multi"; status := LIVE;
     accept_deadline := Some 7200000000;
     participant_ids := ["c"]; invited_user_ids := ["u1"; "u2"; "u3"];
     accepted_user_ids := ["u1"; "u2"];
     start_time := Some 5; end_time := Some 86400000005;
     vote_counts := Some ∅; created_at := 0 |}.

(** * Properties *)

(** ** What the store primitives leave alone *)

Lemma foldl_invariant {A B} (P : A → Prop) (f : A → B → A) (l : list B) a :
  (∀ x b, P x → P (f x b)) → P a → P (foldl f a l).
Proof.
  intros Hf. revert a.
  induction l as [|b l IH]; simpl; intros a Ha; [done|].
  apply IH, Hf, Ha.
Qed.

Lemma notify_each_battles now uids t m k r s :
  battles (notify_each now uids t m k r s) = battles s.
Proof.
  unfold notify_each.
  apply (foldl_invariant (λ st, battles st = battles s)); [|done].
  by intros st u Hst.
Qed.

Lemma notify_each_votes now uids t m k r s :
  votes (notify_each now uids t m k r s) = votes s.
Proof.
  unfold notify_each.
  apply (foldl_invariant (λ st, votes st = votes s)); [|done].
  by intros st u Hst.
Qed.

Lemma notify_each_submissions now uids t m k r s :
  battle_submissions (notify_each now uids t m k r s) = battle_submissions s.
Proof.
  unfold notify_each.
  apply (foldl_invariant (λ st, battle_submissions st = battle_submissions s));
    [|done].
  by intros st u Hst.
Qed.

(** A loop whose body is a guarded [notify_user] touches [notifications]
    only. *)
Lemma guarded_notify_tables (P : string → Prop) `{!∀ x, Decision (P x)}
    now t m k r l s :
  let s' :=
    foldl (λ st aid, if decide (P aid) then notify_user now aid t m k r st
                     else st) s l in
  battles s' = battles s ∧ votes s' = votes s
  ∧ battle_submissions s' = battle_submissions s.
Proof.
  apply (foldl_invariant
    (λ st, battles st = battles s ∧ votes st = votes s
           ∧ battle_submissions st = battle_submissions s)); [|done].
  intros st aid Hst. by destruct (decide (P aid)).
Qed.

Lemma update_battle_lookup battle_id f s data :
  battles s !! battle_id = Some data →
  battles (update_battle battle_id f s) !! battle_id = Some (f data).
Proof. intros H. simpl. by rewrite lookup_alter_eq, H. Qed.

Lemma update_battle_lookup_ne battle_id other f s :
  battle_id ≠ other →
  battles (update_battle battle_id f s) !! other = battles s !! other.
Proof. intros H. simpl. by rewrite lookup_alter_ne. Qed.

(** ** Accepting after the deadline *)

(** C1. For a battle whose [accept_deadline] is set, an Accept served
    strictly after the deadline fails with [ExpiredWindow], leaves the
    battle CANCELLED and every other table and battle as they were, and
    sends the creator exactly one notification: whoever the caller is
    (invited or not) and whatever acceptances the battle already holds. *)
Theorem accept_after_deadline_cancels now battle_id uid s data d :
  battles s !! battle_id = Some data →
  accept_deadline data = Some d →
  now > d →
  ∃ s',
    accept_battle now battle_id uid s = (Raise ExpiredWindow, s')
    ∧ battles s' !! battle_id = Some (set_status CANCELLED data)
    ∧ status (set_status CANCELLED data) = CANCELLED
    ∧ accepted_user_ids (set_status CANCELLED data) = accepted_user_ids data
    ∧ (∀ other, other ≠ battle_id → battles s' !! other = battles s !! other)
    ∧ notifications s' = notifications s ++
        [ {| n_user_id := creator_id data;
             n_title := "Battle cancelled.";
             n_message := "Acceptance requirement not met in 2 hours.";
             n_type := "battle_result";
             n_reference_id := Some battle_id;
             n_is_read := false; n_created_at := now |} ]
    ∧ votes s' = votes s
    ∧ battle_submissions s' = battle_submissions s.
Proof.
  intros Hb Hd Hnow.
  unfold accept_battle, _load_acceptance_lists. rewrite Hb.
  unfold deadline_passed. rewrite Hd.
  assert ((d <? now) = true) as -> by lia.
  eexists. split; [reflexivity|].
  repeat split.
  - cbn [battles notify_user]. by apply update_battle_lookup.
  - intros other Hne. cbn [battles notify_user].
    by apply update_battle_lookup_ne.
Qed.

Lemma sample_1v1_lookup : battles sample_1v1 !! "b" = Some sample_1v1_row.
Proof. vm_compute. reflexivity. Qed.

Lemma accept_after_deadline_cancels_witness :
  ∃ s',
    accept_battle 7200000001 "b" "stranger" sample_1v1 = (Raise ExpiredWindow, s')
    ∧ status <$> (battles s' !! "b") = Some CANCELLED.
Proof.
  destruct (accept_after_deadline_cancels 7200000001 "b" "stranger"
              sample_1v1 sample_1v1_row 7200000000)
    as (s' & Hr & Hb & _); [apply sample_1v1_lookup | reflexivity | lia |].
  exists s'. split; [exact Hr|]. by rewrite Hb.
Defined.

(** ** The acceptance threshold *)

Lemma _threshold_met_spec m (n : nat) :
  _threshold_met m n = true ↔
  (m = "1v1" ∧ (n ≥ 1)%nat) ∨ (m = "multi" ∧ (n ≥ 2)%nat).
Proof.
  unfold _threshold_met.
  rewrite orb_true_iff, !andb_true_iff, !bool_decide_eq_true, !Nat.leb_le.
  reflexivity.
Qed.

(** The tables an Accept that records a new acceptance leaves behind. *)
Lemma accept_battle_new now battle_id uid s data :
  battles s !! battle_id = Some data →
  deadline_passed now (accept_deadline data) = false →
  uid ∈ invited_user_ids data →
  uid ∉ accepted_user_ids data →
  let accepted : gset string := list_to_set (accepted_user_ids data) ∪ {[uid]} in
  let data' :=
    set_accepted (elements accepted)
      (if _threshold_met (mode data) (size accepted) then UPLOADING else INVITED)
      data in
  ∃ s',
    accept_battle now battle_id uid s = (Ok Accepted, s')
    ∧ battles s' = <[battle_id := data']> (battles s)
    ∧ votes s' = votes s
    ∧ battle_submissions s' = battle_submissions s.
Proof.
  intros Hb Hd Hinv Hacc accepted data'.
  unfold accept_battle, _load_acceptance_lists. rewrite Hb, Hd.
  rewrite decide_False by (rewrite elem_of_list_to_set; tauto).
  rewrite decide_False by (by rewrite elem_of_list_to_set).
  fold accepted.
  match goal with
  | |- context [foldl ?f ?a (elements accepted)] =>
      pose proof (guarded_notify_tables
                    (λ aid, aid ≠ creator_id data ∧ aid ≠ uid)
                    now (tag_from_user uid +:+ " joined the battle.")
                    "Upload your photo to start." "challenge_accepted"
                    (Some battle_id) (elements accepted) a) as (Hg1 & Hg2 & Hg3);
      set (s3 := foldl f a (elements accepted)) in *
  end.
  cbn [battles votes battle_submissions notify_user update_battle] in Hg1, Hg2, Hg3.
  subst data'.
  destruct (_threshold_met (mode data) (size accepted)); eexists;
    (split; [reflexivity|]).
  - rewrite notify_each_battles, notify_each_votes, notify_each_submissions.
    cbn [battles votes battle_submissions update_battle].
    rewrite Hg1, Hg2, Hg3. split; [|done].
    apply map_eq. intros k. destruct (decide (k = battle_id)) as [->|Hne].
    + by rewrite lookup_insert_eq, !lookup_alter_eq, Hb.
    + by rewrite lookup_insert_ne, !lookup_alter_ne by done.
  - rewrite Hg1, Hg2, Hg3. split; [|done].
    apply map_eq. intros k. destruct (decide (k = battle_id)) as [->|Hne].
    + by rewrite lookup_insert_eq, lookup_alter_eq, Hb.
    + by rewrite lookup_insert_ne, lookup_alter_ne by done.
Qed.

(** C2. A successful Accept either finds the caller already accepted and
    changes nothing, or records the acceptance and leaves the battle
    UPLOADING exactly when the resulting number of accepted users meets the
    threshold of the mode (at least 1 for "1v1", at least 2 for "multi"),
    and INVITED below it. *)
Theorem accept_threshold_transition now battle_id uid s data r s' :
  battles s !! battle_id = Some data →
  accept_battle now battle_id uid s = (Ok r, s') →
  (uid ∈ accepted_user_ids data ∧ s' = s)
  ∨ ((uid ∉ accepted_user_ids data)
     ∧ ∃ data',
         battles s' !! battle_id = Some data'
         ∧ mode data' = mode data
         ∧ NoDup (accepted_user_ids data')
         ∧ (∀ x, x ∈ accepted_user_ids data'
                 ↔ x ∈ accepted_user_ids data ∨ x = uid)
         ∧ (status data' = UPLOADING ↔
              (mode data = "1v1" ∧ (length (accepted_user_ids data') ≥ 1)%nat)
              ∨ (mode data = "multi"
                 ∧ (length (accepted_user_ids data') ≥ 2)%nat))
         ∧ (status data' = UPLOADING ∨ status data' = INVITED)).
Proof.
  intros Hb Hacc.
  destruct (deadline_passed now (accept_deadline data)) eqn:Hd.
  { unfold accept_battle, _load_acceptance_lists in Hacc.
    rewrite Hb, Hd in Hacc. discriminate. }
  destruct (decide (uid ∈ invited_user_ids data)) as [Hinv|Hinv].
  2:{ unfold accept_battle, _load_acceptance_lists in Hacc.
      rewrite Hb, Hd in Hacc.
      rewrite decide_True in Hacc by (by rewrite elem_of_list_to_set).
      discriminate. }
  destruct (decide (uid ∈ accepted_user_ids data)) as [Hin|Hin].
  { left. split; [done|].
    unfold accept_battle, _load_acceptance_lists in Hacc.
    rewrite Hb, Hd in Hacc.
    rewrite decide_False in Hacc by (rewrite elem_of_list_to_set; tauto).
    rewrite decide_True in Hacc by (by rewrite elem_of_list_to_set).
    congruence. }
  right. split; [done|].
  destruct (accept_battle_new now battle_id uid s data Hb Hd Hinv Hin)
    as (s'' & Heq & Hbat & _).
  rewrite Heq in Hacc. injection Hacc as <- <-.
  eexists. split; [rewrite Hbat; apply lookup_insert_eq|].
  cbn [mode accepted_user_ids status set_accepted].
  set (accepted := (list_to_set (accepted_user_ids data) ∪ {[uid]} : gset string)).
  split; [done|]. split; [apply NoDup_elements|].
  split.
  { intros x. rewrite elem_of_elements. unfold accepted.
    rewrite elem_of_union, elem_of_list_to_set, elem_of_singleton. tauto. }
  change (length (elements accepted)) with (size accepted).
  pose proof (_threshold_met_spec (mode data) (size accepted)) as Hspec.
  destruct (_threshold_met (mode data) (size accepted)).
  - split; [|by left]. split; [intros _; by apply Hspec | done].
  - split; [|by right]. split; [done|].
    intros H. apply Hspec in H. discriminate.
Qed.

Lemma accept_threshold_transition_witness :
  ∃ data',
    battles (accept_battle 5 "b" "u" sample_1v1).2 !! "b" = Some data'
    ∧ status data' = UPLOADING
    ∧ accepted_user_ids data' = ["u"].
Proof.
  destruct (accept_threshold_transition 5 "b" "u" sample_1v1 sample_1v1_row
              Accepted (accept_battle 5 "b" "u" sample_1v1).2)
    as [[Hin _]|(_ & data' & Hb & _ & _ & _ & Hst & _)].
  - apply sample_1v1_lookup.
  - vm_compute. reflexivity.
  - exfalso. revert Hin. vm_compute. apply not_elem_of_nil.
  - exists data'. split; [exact Hb|].
    assert (Some data' = battles (accept_battle 5 "b" "u" sample_1v1).2 !! "b")
      as Hcomp by (by rewrite Hb).
    vm_compute in Hcomp. injection Hcomp as ->. by vm_compute.
Defined.

(** Along any sequence of Accept calls on a battle that starts INVITED
    with nobody accepted, the battle is CANCELLED or in the status its
    acceptances call for: UPLOADING once the threshold is met and not
    before. *)
Lemma accepts_status battle_id calls s data :
  battles s !! battle_id = Some data →
  status data = CANCELLED ∨ status data = status_for_acceptances data →
  ∃ data',
    battles (accepts battle_id calls s) !! battle_id = Some data'
    ∧ mode data' = mode data
    ∧ (status data' = CANCELLED
       ∨ status data' = status_for_acceptances data').
Proof.
  revert s data. induction calls as [|[now uid] calls IH]; intros s data Hb Hst.
  { exists data. by repeat split. }
  cbn [accepts foldl]. fold (accepts battle_id calls).
  assert (∃ data1,
            battles (accept_battle now battle_id uid s).2 !! battle_id
            = Some data1
            ∧ mode data1 = mode data
            ∧ (status data1 = CANCELLED
               ∨ status data1 = status_for_acceptances data1))
    as (data1 & Hb1 & Hm1 & Hst1).
  { destruct (deadline_passed now (accept_deadline data)) eqn:Hd.
    { unfold accept_battle, _load_acceptance_lists. rewrite Hb, Hd.
      cbn [snd battles notify_user].
      erewrite update_battle_lookup by done. eexists. split; [done|].
      split; [done|]. by left. }
    destruct (decide (uid ∈ invited_user_ids data)) as [Hinv|Hinv].
    2:{ unfold accept_battle, _load_acceptance_lists. rewrite Hb, Hd.
        rewrite decide_True by (by rewrite elem_of_list_to_set).
        exists data. by repeat split. }
    destruct (decide (uid ∈ accepted_user_ids data)) as [Hin|Hin].
    { unfold accept_battle, _load_acceptance_lists. rewrite Hb, Hd.
      rewrite decide_False by (rewrite elem_of_list_to_set; tauto).
      rewrite decide_True by (by rewrite elem_of_list_to_set).
      exists data. by repeat split. }
    destruct (accept_battle_new now battle_id uid s data Hb Hd Hinv Hin)
      as (s' & -> & Hbat & _).
    cbn [snd]. rewrite Hbat, lookup_insert_eq. eexists. split; [done|].
    split; [done|]. right. reflexivity. }
  destruct (IH _ data1 Hb1 Hst1) as (data' & Hb' & Hm' & Hst').
  exists data'. split; [exact Hb'|]. split; [congruence|exact Hst'].
Qed.

(** ** Case analyses of the handlers on the tables *)

Lemma accept_battle_cases now battle_id uid s :
  let s' := (accept_battle now battle_id uid s).2 in
  votes s' = votes s
  ∧ battle_submissions s' = battle_submissions s
  ∧ (battles s' = battles s
     ∨ battles s' = alter (set_status CANCELLED) battle_id (battles s)
     ∨ ∃ data st,
         battles s !! battle_id = Some data
         ∧ uid ∈ invited_user_ids data
         ∧ battles s' =
             <[battle_id :=
                 set_accepted
                   (elements (list_to_set (accepted_user_ids data) ∪ {[uid]}
                              : gset string)) st data]> (battles s)).
Proof.
  destruct (battles s !! battle_id) as [data|] eqn:Hb.
  2:{ unfold accept_battle, _load_acceptance_lists. rewrite Hb. simpl. tauto. }
  destruct (deadline_passed now (accept_deadline data)) eqn:Hd.
  { unfold accept_battle, _load_acceptance_lists. rewrite Hb, Hd. simpl. tauto. }
  destruct (decide (uid ∈ invited_user_ids data)) as [Hinv|Hinv].
  2:{ unfold accept_battle, _load_acceptance_lists. rewrite Hb, Hd.
      rewrite decide_True by (by rewrite elem_of_list_to_set). simpl. tauto. }
  destruct (decide (uid ∈ accepted_user_ids data)) as [Hin|Hin].
  { unfold accept_battle, _load_acceptance_lists. rewrite Hb, Hd.
    rewrite decide_False by (rewrite elem_of_list_to_set; tauto).
    rewrite decide_True by (by rewrite elem_of_list_to_set). simpl. tauto. }
  destruct (accept_battle_new now battle_id uid s data Hb Hd Hinv Hin)
    as (s'' & Heq & Hbat & Hv & Hsub).
  rewrite Heq. cbn [snd]. split; [done|]. split; [done|].
  right. right. eauto.
Qed.

Lemma upload_battle_submission_cases now battle_id uid m s :
  let s' := (upload_battle_submission now battle_id uid m s).2 in
  votes s' = votes s
  ∧ (battles s' = battles s
     ∨ battles s' =
         alter (set_live LIVE now (now + timedelta_hours 24)) battle_id
           (battles s)).
Proof.
  unfold upload_battle_submission, _load_acceptance_lists.
  destruct (battles s !! battle_id) as [data|]; [|simpl; tauto].
  destruct (decide _); [simpl; tauto|].
  destruct m as [[|a url]|]; [simpl; tauto| |simpl; tauto].
  destruct (_ <=? _)%nat; cbn [snd]; [|simpl; tauto].
  rewrite notify_each_votes, notify_each_battles. simpl. tauto.
Qed.

Lemma vote_battle_cases now battle_id uid c s :
  let s' := (vote_battle now battle_id uid c s).2 in
  (s' = s ∧ existing_vote battle_id uid s ≠ []
   ∨ existing_vote battle_id uid s = []
     ∧ votes s' = votes s ++
         [ {| vote_battle_id := battle_id; vote_user_id := uid;
              choice := c; vote_created_at := now |} ])
  ∧ battle_submissions s' = battle_submissions s
  ∧ (battles s' = battles s
     ∨ ∃ counts, battles s' = alter (set_vote_counts counts) battle_id (battles s)).
Proof.
  unfold vote_battle.
  destruct (existing_vote battle_id uid s) eqn:He; [|simpl; split; [by left|tauto]].
  cbn [battles].
  destruct (battles s !! battle_id) as [battle|]; [|simpl; split; [by right|tauto]].
  destruct (vote_counts battle) as [counts|]; [|simpl; split; [by right|tauto]].
  cbn [snd]. destruct (decide _); simpl; (split; [by right|]); eauto.
Qed.

Lemma create_user_battle_cases d now new_id creator payload s :
  let s' := (create_user_battle d now new_id creator payload s).2 in
  votes s' = votes s
  ∧ battle_submissions s' = battle_submissions s
  ∧ (battles s' = battles s
     ∨ ∃ record,
         accepted_user_ids record = [] ∧ status record = INVITED
         ∧ battles s !! new_id = None
         ∧ battles s' = <[new_id := record]> (battles s)).
Proof.
  unfold create_user_battle.
  destruct (UserBattleCreate_errors payload); [|simpl; tauto].
  destruct (battles s !! new_id) eqn:Hb; [simpl; tauto|].
  cbn [snd].
  rewrite notify_each_votes, notify_each_submissions, notify_each_battles.
  cbn [votes battle_submissions battles].
  split; [done|]. split; [done|]. right. eexists. by repeat split.
Qed.

(** ** Accepted users are invited users *)








(** ** One vote per user and battle *)

Lemma vote_battle_existing now battle_id uid c s :
  existing_vote battle_id uid s ≠ [] →
  vote_battle now battle_id uid c s = (Raise AlreadyVoted, s).
Proof.
  intros He. unfold vote_battle.
  by destruct (existing_vote battle_id uid s).
Qed.

Lemma existing_vote_grow battle_id uid s s' l :
  votes s' = votes s ++ l →
  existing_vote battle_id uid s ≠ [] → existing_vote battle_id uid s' ≠ [].
Proof.
  unfold existing_vote. intros -> He. rewrite filter_app.
  intros [H _]%app_eq_nil. by apply He.
Qed.

Lemma step_votes_grow d now op s :
  ∃ l, votes (step d now op s).2 = votes s ++ l.
Proof.
  destruct op as [new_id creator payload|b u|b u|b u m|b u c]; simpl.
  - destruct (create_user_battle_cases d now new_id creator payload s) as (-> & _).
    exists []. by rewrite app_nil_r.
  - destruct (accept_battle_cases now b u s) as (-> & _).
    exists []. by rewrite app_nil_r.
  - exists []. rewrite app_nil_r. unfold decline_battle.
    destruct (_load_acceptance_lists b s); [|done]. by destruct (decide _).
  - destruct (upload_battle_submission_cases now b u m s) as (-> & _).
    exists []. by rewrite app_nil_r.
  - destruct (vote_battle_cases now b u c s) as ([[-> _]|[_ ->]] & _); eauto.
    exists []. by rewrite app_nil_r.
Qed.

Lemma run_votes_grow d ops s : ∃ l, votes (run d ops s) = votes s ++ l.
Proof.
  revert s. induction ops as [|[now op] ops IH]; intros s; simpl.
  - exists []. by rewrite app_nil_r.
  - destruct (IH (step d now op s).2) as [l2 ->].
    destruct (step_votes_grow d now op s) as [l1 ->].
    exists (l1 ++ l2). by rewrite app_assoc.
Qed.

Lemma vote_battle_leaves_vote now battle_id uid c s :
  existing_vote battle_id uid (vote_battle now battle_id uid c s).2 ≠ [].
Proof.
  destruct (vote_battle_cases now battle_id uid c s) as ([[-> H]|[_ H]] & _);
    [done|].
  unfold existing_vote. rewrite H, filter_app.
  rewrite (filter_cons_True _ _ []) by done.
  intros [_ ?]%app_eq_nil. discriminate.
Qed.

(** C7. Once Vote has been called for a battle and a user, whatever its
    outcome and whatever requests are served in between, every further
    Vote for the same battle and user fails with [AlreadyVoted] and
    returns the store as it found it: the stored votes, the counts kept
    on the battle and the tally computed from the votes are unchanged. *)
Theorem second_vote_rejected d now1 now2 battle_id uid c1 c2 ops s :
  let s1 := (vote_battle now1 battle_id uid c1 s).2 in
  let s2 := run d ops s1 in
  vote_battle now2 battle_id uid c2 s2 = (Raise AlreadyVoted, s2)
  ∧ votes (vote_battle now2 battle_id uid c2 s2).2 = votes s2
  ∧ battles (vote_battle now2 battle_id uid c2 s2).2 = battles s2.
Proof.
  intros s1 s2.
  assert (vote_battle now2 battle_id uid c2 s2 = (Raise AlreadyVoted, s2)) as ->.
  { apply vote_battle_existing.
    destruct (run_votes_grow d ops s1) as [l Hl].
    eapply existing_vote_grow; [exact Hl|].
    apply vote_battle_leaves_vote. }
  done.
Qed.

(** C6. (What the code does instead.) Vote reads neither the status of the
    battle nor its end time: for a user who has not voted yet, on a battle
    that exists and carries vote counts, the vote is stored and counted
    and the call succeeds, in every status and at every time. *)
Theorem vote_accepted_in_any_state now battle_id uid c s battle counts :
  battles s !! battle_id = Some battle →
  vote_counts battle = Some counts →
  existing_vote battle_id uid s = [] →
  ∃ row s',
    vote_battle now battle_id uid c s = (Ok (Voted row), s')
    ∧ choice row = c
    ∧ votes s' = votes s ++ [row]
    ∧ battles s' !! battle_id =
        Some (set_vote_counts
                (<[c := default 0 (counts !! c) + 1]> counts) battle).
Proof.
  intros Hb Hc He. unfold vote_battle. rewrite He. cbn [battles].
  rewrite Hb, Hc. do 2 eexists. split; [reflexivity|].
  split; [done|].
  destruct (decide _); cbn [votes battles notify_user update_battle];
    (split; [done|]); by rewrite lookup_alter_eq, Hb.
Qed.

Lemma vote_accepted_in_any_state_witness :
  status sample_1v1_row = INVITED
  ∧ end_time sample_1v1_row = None
  ∧ ∃ row s',
      vote_battle 5 "b" "v" "A" sample_1v1 = (Ok (Voted row), s')
      ∧ votes s' = votes sample_1v1 ++ [row].
Proof.
  split; [reflexivity|]. split; [reflexivity|].
  destruct (vote_accepted_in_any_state 5 "b" "v" "A" sample_1v1
              sample_1v1_row ∅ sample_1v1_lookup eq_refl eq_refl)
    as (row & s' & Hv & _ & Hvotes & _).
  by exists row, s'.
Defined.

(** ** The tally *)

Section Counting.
Context {A : Type} (P Q : A → Prop).
Context `{!∀ x, Decision (P x)} `{!∀ x, Decision (Q x)}.
Hypothesis disjoint : ∀ x, P x → Q x → False.

Lemma filter_two_le (l : list A) :
  (length (filter P l) + length (filter Q l) ≤ length l)%nat.
Proof using disjoint.
  induction l as [|x l IH]; [done|].
  rewrite !filter_cons.
  destruct (decide (P x)) as [Hp|Hp], (decide (Q x)) as [Hq|Hq]; simpl;
    [by destruct (disjoint x)|lia..].
Qed.

Lemma filter_two_eq (l : list A) :
  (length (filter P l) + length (filter Q l))%nat = length l
  ↔ Forall (λ x, P x ∨ Q x) l.
Proof using disjoint.
  induction l as [|x l IH]; [by split|].
  rewrite !filter_cons, Forall_cons, <- IH.
  pose proof (filter_two_le l).
  destruct (decide (P x)) as [Hp|Hp], (decide (Q x)) as [Hq|Hq]; simpl.
  - by destruct (disjoint x).
  - split; [intros ?; split; [tauto|lia] | intros [_ ?]; lia].
  - split; [intros ?; split; [tauto|lia] | intros [_ ?]; lia].
  - split; [intros ?; exfalso; lia | intros [[?|?] _]; tauto].
Qed.
End Counting.

(** C10. Vote stores the choice it is given, whatever the string; the
    tally counts the votes whose choice is "A" and those whose choice is
    "B" among all the votes of the battle, so that the two counts add up
    to at most the total, and to the total exactly when every stored vote
    of the battle chose "A" or "B". *)
Theorem tally_counts_only_A_and_B battle_id s :
  let r := get_battle_results_internal battle_id s in
  (option_a_votes r + option_b_votes r ≤ total_votes r)%nat
  ∧ ((option_a_votes r + option_b_votes r)%nat = total_votes r
     ↔ ∀ v, v ∈ votes s → vote_battle_id v = battle_id →
            choice v = "A" ∨ choice v = "B")
  ∧ (∀ now uid c,
       existing_vote battle_id uid s = [] →
       votes (vote_battle now battle_id uid c s).2 = votes s ++
         [ {| vote_battle_id := battle_id; vote_user_id := uid;
              choice := c; vote_created_at := now |} ]).
Proof.
  cbn [option_a_votes option_b_votes total_votes get_battle_results_internal].
  assert (∀ v : VoteRow, choice v = "A" → choice v = "B" → False) as Hdis
    by (intros v ->; discriminate).
  split; [by apply filter_two_le|]. split.
  - rewrite filter_two_eq by done. rewrite Forall_forall. unfold votes_of.
    split.
    + intros H v Hv Hb. apply H, list_elem_of_filter. by split.
    + intros H v [Hb Hv]%list_elem_of_filter. by apply H.
  - intros now uid c He.
    destruct (vote_battle_cases now battle_id uid c s) as ([[_ H]|[_ H]] & _);
      [by destruct H|exact H].
Qed.

Lemma tally_counts_only_A_and_B_witness :
  choice <$> votes sample_voted_C = ["C"]
  ∧ total_votes (get_battle_results_internal "b" sample_voted_C) = 1%nat
  ∧ option_a_votes (get_battle_results_internal "b" sample_voted_C) = 0%nat
  ∧ option_b_votes (get_battle_results_internal "b" sample_voted_C) = 0%nat.
Proof.
  destruct (tally_counts_only_A_and_B "b" sample_1v1) as (_ & _ & Hv).
  unfold sample_voted_C. rewrite (Hv 5 "v" "C" eq_refl).
  by vm_compute.
Defined.

Lemma nearest_tenths_nearest m e :
  nearest_ties_even (tenths_fraction m e).1 (tenths_fraction m e).2
    (nearest_tenths m e).
Proof.
  unfold nearest_ties_even, tenths_fraction, nearest_tenths.
  destruct (0 <=? e) eqn:He; cbn [fst snd].
  - replace (2 * (Z.pos m * 10 * 2 ^ e) - 2 * (Z.pos m * 10 * 2 ^ e) * 1)
      with 0 by lia. split; [simpl; lia|]. simpl. lia.
  - assert (0 < 2 ^ (- e)) as Hd by (apply Z.pow_pos_nonneg; lia).
    set (d := 2 ^ (- e)) in *. set (n := Z.pos m * 10).
    pose proof (Z.div_mod n d ltac:(lia)) as Hdm.
    pose proof (Z.mod_pos_bound n d Hd) as Hr.
    set (q := n / d) in *. set (r := n mod d) in *.
    destruct (2 * r <? d) eqn:H1; [|destruct (d <? 2 * r) eqn:H2].
    + split; [lia|lia].
    + split; [lia|lia].
    + assert (2 * r = d) as Ht by lia.
      destruct (Z.even q) eqn:Hq.
      * split; [lia|done].
      * split; [lia|]. intros _. rewrite Z.even_add, Hq. done.
Qed.

Lemma nearest_ties_even_unique num den k1 k2 :
  0 < den →
  nearest_ties_even num den k1 → nearest_ties_even num den k2 → k1 = k2.
Proof.
  intros Hd [H1 E1] [H2 E2].
  assert (k1 = k2 ∨ k1 = k2 + 1 ∨ k2 = k1 + 1) as [?|[->| ->]]; [nia|done| |].
  - assert (Z.even k2 = true) as Ha by (apply E2; nia).
    assert (Z.even (k2 + 1) = true) as Hb by (apply E1; nia).
    rewrite Z.even_add, Ha in Hb. discriminate.
  - assert (Z.even k1 = true) as Ha by (apply E1; nia).
    assert (Z.even (k1 + 1) = true) as Hb by (apply E2; nia).
    rewrite Z.even_add, Ha in Hb. discriminate.
Qed.

(** [round(x, 1)] of the code rounds to one decimal, ties to even. *)
Lemma py_round1_rounds x : rounded_to_one_decimal x (py_round1 x).
Proof.
  unfold rounded_to_one_decimal, py_round1.
  destruct (Prim2SF x) as [| | |sign m e]; try done.
  exists (nearest_tenths m e). split; [apply nearest_tenths_nearest|done].
Qed.

(** A number has one rounding to one decimal. *)
Lemma rounded_to_one_decimal_unique x y1 y2 :
  rounded_to_one_decimal x y1 → rounded_to_one_decimal x y2 → y1 = y2.
Proof.
  unfold rounded_to_one_decimal.
  destruct (Prim2SF x) as [| | |sign m e]; try congruence.
  intros (k1 & Hk1 & ->) (k2 & Hk2 & ->).
  assert (0 < (tenths_fraction m e).2) as Hd.
  { unfold tenths_fraction. destruct (0 <=? e) eqn:He; cbn [snd]; [lia|].
    apply Z.pow_pos_nonneg; lia. }
  by rewrite (nearest_ties_even_unique _ _ k1 k2 Hd Hk1 Hk2).
Qed.

Lemma is_percentage_unique count total p1 p2 :
  is_percentage count total p1 → is_percentage count total p2 → p1 = p2.
Proof.
  unfold is_percentage. destruct (decide (total = 0%nat)); [congruence|].
  apply rounded_to_one_decimal_unique.
Qed.

(** C8. The tally is computed from the stored votes alone and returns no
    store: [total_votes] is the number of votes of the battle,
    [option_a_votes] and [option_b_votes] the numbers of those with choice
    "A" and "B", each percentage is [round(count/total * 100, 1)], the one
    number that is [count/total * 100] rounded to one decimal, and 0 when
    there is no vote. With no vote the response is all zeros; with three
    votes for "A" and one for "B" among four it is 4, 3, 1, 75.0 and 25.0;
    with one for "A" and two for "B" the percentages are 33.3 and 66.7,
    and with one for "A" among sixteen, the rest for "B", they are 6.2 and
    93.8, the ties going to the even tenth. *)
Theorem results_tally battle_id s :
  let r := get_battle_results_internal battle_id s in
  r_battle_id r = battle_id
  ∧ total_votes r =
      length (filter (λ v, vote_battle_id v = battle_id) (votes s))
  ∧ option_a_votes r =
      length (filter (λ v, choice v = "A" ∧ vote_battle_id v = battle_id)
                (votes s))
  ∧ option_b_votes r =
      length (filter (λ v, choice v = "B" ∧ vote_battle_id v = battle_id)
                (votes s))
  ∧ (∀ p, is_percentage (option_a_votes r) (total_votes r) p
          ↔ p = option_a_percentage r)
  ∧ (∀ p, is_percentage (option_b_votes r) (total_votes r) p
          ↔ p = option_b_percentage r)
  ∧ (∀ s2, votes s2 = votes s → get_battle_results_internal battle_id s2 = r)
  ∧ (total_votes r = 0%nat →
     r = {| r_battle_id := battle_id; total_votes := 0;
            option_a_votes := 0; option_b_votes := 0;
            option_a_percentage := 0; option_b_percentage := 0 |})
  ∧ (option_a_votes r = 3%nat → option_b_votes r = 1%nat →
     total_votes r = 4%nat →
     r = {| r_battle_id := battle_id; total_votes := 4;
            option_a_votes := 3; option_b_votes := 1;
            option_a_percentage := 75; option_b_percentage := 25 |})
  ∧ (option_a_votes r = 1%nat → option_b_votes r = 2%nat →
     total_votes r = 3%nat →
     r = {| r_battle_id := battle_id; total_votes := 3;
            option_a_votes := 1; option_b_votes := 2;
            option_a_percentage := 33.3; option_b_percentage := 66.7 |})
  ∧ (option_a_votes r = 1%nat → option_b_votes r = 15%nat →
     total_votes r = 16%nat →
     r = {| r_battle_id := battle_id; total_votes := 16;
            option_a_votes := 1; option_b_votes := 15;
            option_a_percentage := 6.2; option_b_percentage := 93.8 |}).
Proof.
  assert (∀ a t : nat,
    is_percentage a t
      (py_round1 (if (0 <? t)%nat
                  then (float_of_nat a / float_of_nat t * 100)%float
                  else 0%float))) as Hpct.
  { intros a t. unfold is_percentage.
    destruct t as [|t]; [reflexivity|]. rewrite decide_False by done.
    apply py_round1_rounds. }
  assert (∀ s2, votes s2 = votes s →
            get_battle_results_internal battle_id s2
            = get_battle_results_internal battle_id s) as Hpure.
  { intros s2 Hs2. unfold get_battle_results_internal, votes_of.
    by rewrite Hs2. }
  revert Hpure. unfold get_battle_results_internal.
  cbn [r_battle_id total_votes option_a_votes option_b_votes
       option_a_percentage option_b_percentage].
  unfold votes_of. intros Hpure.
  split; [done|]. split; [done|]. split; [by rewrite list_filter_filter|].
  split; [by rewrite list_filter_filter|].
  split.
  { intros p. split; [|intros ->; apply Hpct].
    intros Hp. eapply is_percentage_unique; [exact Hp|apply Hpct]. }
  split.
  { intros p. split; [|intros ->; apply Hpct].
    intros Hp. eapply is_percentage_unique; [exact Hp|apply Hpct]. }
  split; [exact Hpure|]. clear Hpure Hpct.
  split; [|split; [|split]].
  - intros H0. apply length_zero_iff_nil in H0. rewrite H0. reflexivity.
  - intros -> -> ->. reflexivity.
  - intros -> -> ->. reflexivity.
  - intros -> -> ->. reflexivity.
Qed.

Lemma results_tally_witness :
  get_battle_results_internal "b" sample_four_votes
  = {| r_battle_id := "b"; total_votes := 4;
       option_a_votes := 3; option_b_votes := 1;
       option_a_percentage := 75; option_b_percentage := 25 |}
  ∧ get_battle_results_internal "b" sample_1v1
    = {| r_battle_id := "b"; total_votes := 0;
         option_a_votes := 0; option_b_votes := 0;
         option_a_percentage := 0; option_b_percentage := 0 |}
  ∧ get_battle_results_internal "b" sample_three_votes
    = {| r_battle_id := "b"; total_votes := 3;
         option_a_votes := 1; option_b_votes := 2;
         option_a_percentage := 33.3; option_b_percentage := 66.7 |}.
Proof.
  split; [|split].
  - destruct (results_tally "b" sample_four_votes)
      as (_ & _ & _ & _ & _ & _ & _ & _ & H & _); apply H; by vm_compute.
  - destruct (results_tally "b" sample_1v1)
      as (_ & _ & _ & _ & _ & _ & _ & H & _); apply H; by vm_compute.
  - destruct (results_tally "b" sample_three_votes)
      as (_ & _ & _ & _ & _ & _ & _ & _ & _ & H & _); apply H; by vm_compute.
Defined.

(** ** When a battle goes live *)

(** An Upload by a participant compares the number of distinct submitters
    with the number of accepted users plus one, in every status of the
    battle. *)
Lemma upload_battle_submission_counts now battle_id uid a url s data :
  battles s !! battle_id = Some data →
  uid = creator_id data ∨ uid ∈ accepted_user_ids data →
  ∃ s',
    upload_battle_submission now battle_id uid (Some (String a url)) s
      = (Ok Uploaded, s')
    ∧ battle_submissions s' =
        upsert_submission
          {| sub_battle_id := battle_id; sub_user_id := uid;
             media_url := String a url; sub_created_at := now |}
          (battle_submissions s)
    ∧ battles s' =
        if (size (list_to_set (accepted_user_ids data) : gset string) + 1
            <=? size (submitters battle_id s'))%nat
        then <[battle_id :=
                 set_live LIVE now (now + timedelta_hours 24) data]> (battles s)
        else battles s.
Proof.
  intros Hb Hu.
  unfold upload_battle_submission, _load_acceptance_lists. rewrite Hb.
  rewrite decide_False by (rewrite elem_of_list_to_set; tauto).
  destruct (_ <=? _)%nat eqn:Hle; eexists; (split; [reflexivity|]);
    unfold submitters, submissions_of in *.
  - rewrite notify_each_submissions, notify_each_battles.
    cbn [battle_submissions battles update_battle] in *.
    split; [done|]. rewrite Hle.
    apply map_eq. intros k. destruct (decide (k = battle_id)) as [->|Hne].
    + by rewrite lookup_insert_eq, lookup_alter_eq, Hb.
    + by rewrite lookup_insert_ne, lookup_alter_ne by done.
  - cbn [battle_submissions battles] in *. split; [done|]. by rewrite Hle.
Qed.

(** Where the creator is not among the accepted users and only
    participants have submitted, the comparison of the counts is the
    coverage of the required submitters. *)
Lemma count_test_is_coverage battle_id s data :
  creator_id data ∉ accepted_user_ids data →
  submitters battle_id s ⊆ required_submitters data →
  (size (list_to_set (accepted_user_ids data) : gset string) + 1
   <=? size (submitters battle_id s))%nat = true
  ↔ required_submitters data ⊆ submitters battle_id s.
Proof.
  intros Hc Hsub. rewrite Nat.leb_le.
  assert (size (required_submitters data)
          = (size (list_to_set (accepted_user_ids data) : gset string) + 1)%nat)
    as <-.
  { unfold required_submitters. rewrite size_union, size_singleton; [done|].
    intros x Hx ->%elem_of_singleton. by apply elem_of_list_to_set in Hx. }
  split.
  - intros Hle. by rewrite (set_subseteq_size_eq _ _ Hsub Hle).
  - apply subseteq_size.
Qed.

(** Upserting a submission adds its user to the submitters of the battle
    and nothing else, so that a repeated upload leaves them as they are. *)
Lemma upsert_submission_users row rows :
  (list_to_set
     (sub_user_id <$>
        filter (λ r, sub_battle_id r = sub_battle_id row)
          (upsert_submission row rows)) : gset string)
  = {[sub_user_id row]} ∪
    list_to_set
      (sub_user_id <$>
         filter (λ r, sub_battle_id r = sub_battle_id row) rows).
Proof.
  induction rows as [|r rows IH]; cbn [upsert_submission].
  - rewrite filter_cons_True by done. reflexivity.
  - destruct (decide _) as [[Hb Hu]|Hn].
    + rewrite !filter_cons_True by done.
      rewrite !fmap_cons, !list_to_set_cons, Hu.
      by rewrite (assoc_L (∪)), (idemp_L (∪)).
    + rewrite !(filter_cons _ r). destruct (decide _); [|exact IH].
      rewrite !fmap_cons, !list_to_set_cons, IH.
      by rewrite !(assoc_L (∪)), (comm_L (∪) {[sub_user_id r]}).
Qed.

(** A table with at most one row under the key of the upserted row has
    exactly one afterwards. *)
Lemma upsert_submission_one_row row rows :
  (length (filter (same_key row) rows) ≤ 1)%nat →
  length (filter (same_key row) (upsert_submission row rows)) = 1%nat.
Proof.
  unfold same_key.
  induction rows as [|r rows IH]; cbn [upsert_submission].
  - intros _. by rewrite filter_cons_True.
  - rewrite filter_cons. destruct (decide _) as [Hk|Hn].
    + intros Hle. rewrite filter_cons_True by done. simpl in *. lia.
    + intros Hle. rewrite filter_cons_False by done. by apply IH.
Qed.

(** C3. (Where the code departs.) The creator of a 1v1 battle who invited
    themselves, accepted and uploaded has covered every required
    submitter, the creator and the accepted users being that one user,
    with a single submission row; the battle is nevertheless left
    UPLOADING with no end time, because the code asks for one distinct
    submitter more than there are accepted users. A further upload by the
    same user changes neither. *)
Theorem self_invited_creator_stays_uploading :
  ∃ data,
    battles self_invited !! "b" = Some data
    ∧ creator_id data = "c" ∧ accepted_user_ids data = ["c"]
    ∧ required_submitters data ⊆ submitters "b" self_invited
    ∧ length (battle_submissions self_invited) = 1%nat
    ∧ status data = UPLOADING ∧ end_time data = None
    ∧ let again :=
        (upload_battle_submission 3 "b" "c" (Some "retake.jpg") self_invited).2 in
      status <$> (battles again !! "b") = Some UPLOADING
      ∧ length (battle_submissions again) = 1%nat.
Proof.
  eexists. split; [by vm_compute|].
  split; [done|]. split; [done|].
  split; [|by vm_compute].
  intros x. unfold required_submitters. cbn [accepted_user_ids creator_id].
  rewrite elem_of_union, elem_of_list_to_set, list_elem_of_singleton,
    elem_of_singleton.
  intros Hx. assert (x = "c") as -> by tauto. by vm_compute.
Qed.

(** Under those two conditions an Upload by a participant sets the battle
    LIVE, from the clock reading to 24 hours later, exactly when the
    submitters cover the required ones, and otherwise leaves every battle
    as it was. *)
Lemma upload_live_iff_covered now battle_id uid a url s data :
  battles s !! battle_id = Some data →
  uid = creator_id data ∨ uid ∈ accepted_user_ids data →
  creator_id data ∉ accepted_user_ids data →
  let s' :=
    (upload_battle_submission now battle_id uid (Some (String a url)) s).2 in
  submitters battle_id s' ⊆ required_submitters data →
  (required_submitters data ⊆ submitters battle_id s' →
   battles s' !! battle_id
   = Some (set_live LIVE now (now + timedelta_hours 24) data))
  ∧ (¬ required_submitters data ⊆ submitters battle_id s' →
     battles s' = battles s).
Proof.
  intros Hb Hu Hc s' Hsub.
  destruct (upload_battle_submission_counts now battle_id uid a url s data Hb Hu)
    as (s'' & Heq & _ & Hbat).
  subst s'. rewrite Heq in *. cbn [snd] in *.
  pose proof (count_test_is_coverage battle_id s'' data Hc Hsub) as Hiff.
  rewrite Hbat. destruct (_ <=? _)%nat.
  - split; [intros _; apply lookup_insert_eq|].
    intros Hn. destruct Hn. by apply Hiff.
  - split; [|done]. intros Hcov. apply Hiff in Hcov. discriminate.
Qed.

(** ** Status changes *)

(** C4. (Where the code departs.) An Accept that records a new acceptance
    writes the status INVITED, and then UPLOADING if the threshold is met,
    without reading the status the battle has. The third invitee of a live
    multi battle, accepting within the window, takes it from LIVE back to
    UPLOADING; the first acceptance on a battle that went live on the
    upload of its creator alone takes it from LIVE back to INVITED. *)
Theorem late_accept_reverts_live_battle :
  status <$> (battles live_multi !! "b") = Some LIVE
  ∧ (accept_battle 6 "b" "u3" live_multi).1 = Ok Accepted
  ∧ status <$> (battles (accept_battle 6 "b" "u3" live_multi).2 !! "b")
    = Some UPLOADING
  ∧ status <$> (battles live_alone !! "b") = Some LIVE
  ∧ (accept_battle 2 "b" "u1" live_alone).1 = Ok Accepted
  ∧ status <$> (battles (accept_battle 2 "b" "u1" live_alone).2 !! "b")
    = Some INVITED.
Proof. repeat split; by vm_compute. Qed.

(** The general form: whatever the status before, after a new acceptance
    it is UPLOADING or INVITED. *)
Lemma accept_overwrites_status now battle_id uid s data :
  battles s !! battle_id = Some data →
  deadline_passed now (accept_deadline data) = false →
  uid ∈ invited_user_ids data →
  uid ∉ accepted_user_ids data →
  ∃ data',
    battles (accept_battle now battle_id uid s).2 !! battle_id = Some data'
    ∧ (status data' = UPLOADING ∨ status data' = INVITED).
Proof.
  intros Hb Hd Hinv Hacc.
  destruct (accept_battle_new now battle_id uid s data Hb Hd Hinv Hacc)
    as (s' & -> & Hbat & _).
  cbn [snd]. rewrite Hbat, lookup_insert_eq. eexists. split; [done|].
  cbn [status set_accepted]. destruct (_threshold_met _ _); tauto.
Qed.

(** ** Mode constraints at creation *)

(** A 1v1 payload is accepted exactly when it invites one user. *)
Lemma one_v_one_requires_one_invite t dsc invited vis tags :
  UserBattleCreate_errors
    {| p_title := t; p_description := dsc; p_mode := "1v1";
       p_invited_user_ids := invited; p_visibility := vis; p_tags := tags |}
  = [] ↔ length invited = 1%nat.
Proof.
  unfold UserBattleCreate_errors, validate_mode, validate_invites.
  cbn [p_mode p_invited_user_ids].
  rewrite decide_False by (intros H; apply H; set_solver).
  rewrite decide_True by done.
  destruct (decide (length invited ≠ 1%nat)) as [Hn|Hn]; simpl.
  - split; [discriminate|done].
  - split; [|done]. intros _. destruct (decide (length invited = 1%nat)); done.
Qed.

(** C9. (Where the code departs.) A multi payload is accepted with any
    number of invited users: the size test of [validate_invites] ends in
    [pass]. In particular a multi battle inviting nobody is created, in
    status INVITED. *)
Theorem multi_invites_not_enforced t dsc invited vis tags :
  UserBattleCreate_errors
    {| p_title := t; p_description := dsc; p_mode := "multi";
       p_invited_user_ids := invited; p_visibility := vis; p_tags := tags |}
  = []
  ∧ ∃ row s',
      create_user_battle (Some ∅) 0 "b" "c" (sample_payload "multi" [])
        empty_store = (Ok (BattleCreated "b" row), s')
      ∧ battles s' !! "b" = Some row
      ∧ mode row = "multi" ∧ invited_user_ids row = []
      ∧ status row = INVITED.
Proof.
  split.
  - unfold UserBattleCreate_errors, validate_mode, validate_invites.
    cbn [p_mode p_invited_user_ids].
    rewrite decide_False by (intros H; apply H; set_solver).
    rewrite decide_False by discriminate.
    by destruct (_ || _).
  - do 2 eexists. split; [by vm_compute|]. by vm_compute.
Qed.

(** * Properties of the other parts of the server *)

(** ** The connection registry *)

Lemma connect_active websocket battle_id user_id m :
  active_connections (connect websocket battle_id user_id m)
  = <[battle_id :=
        default ∅ (active_connections m !! battle_id) ∪ {[websocket]}]>
      (active_connections m).
Proof.
  unfold connect. cbn [active_connections].
  apply map_eq. intros k.
  destruct (active_connections m !! battle_id) as [c|] eqn:Hb;
    destruct (decide (k = battle_id)) as [->|Hne].
  - by rewrite lookup_alter_eq, lookup_insert_eq, Hb.
  - by rewrite lookup_alter_ne, lookup_insert_ne by done.
  - by rewrite lookup_alter_eq, !lookup_insert_eq.
  - by rewrite lookup_alter_ne, !lookup_insert_ne by done.
Qed.

Lemma connect_no_empty_entries websocket battle_id user_id m :
  no_empty_entries m → no_empty_entries (connect websocket battle_id user_id m).
Proof.
  intros Hm k c. rewrite connect_active.
  destruct (decide (battle_id = k)) as [->|Hne].
  - rewrite lookup_insert_eq. intros [= <-] He.
    assert (websocket ∈ (∅ : gset WebSocket)) as Hin
      by (rewrite <- He; apply elem_of_union_r, elem_of_singleton; done).
    by apply not_elem_of_empty in Hin.
  - rewrite lookup_insert_ne by done. apply Hm.
Qed.

Lemma disconnect_no_empty_entries websocket battle_id user_id m :
  no_empty_entries m →
  no_empty_entries (disconnect websocket battle_id user_id m).
Proof.
  intros Hm k c. unfold disconnect. cbn [active_connections].
  destruct (active_connections m !! battle_id) as [c0|] eqn:Hb; [|apply Hm].
  destruct (decide (c0 ∖ {[websocket]} = ∅)) as [He|He];
    destruct (decide (battle_id = k)) as [->|Hne].
  - by rewrite lookup_delete_eq.
  - rewrite lookup_delete_ne by done. apply Hm.
  - rewrite lookup_insert_eq. by intros [= <-].
  - rewrite lookup_insert_ne by done. apply Hm.
Qed.

(** X1. Starting from the empty registry, whatever connections are
    registered and removed with [connect] and [disconnect], no battle is
    left registered with an empty set: removing the last connection of a
    battle removes the entry of the battle. *)
Theorem registry_has_no_empty_entries ops :
  no_empty_entries (registry_run ops new_manager).
Proof.
  unfold registry_run.
  apply (foldl_invariant no_empty_entries).
  - intros m [ws b u|ws b u] Hm; simpl.
    + by apply connect_no_empty_entries.
    + by apply disconnect_no_empty_entries.
  - intros k c. simpl. by rewrite lookup_empty.
Qed.

Lemma disconnect_active_lookup websocket battle_id user_id m k :
  active_connections (disconnect websocket battle_id user_id m) !! k
  = if decide (k = battle_id)
    then match active_connections m !! battle_id with
         | Some c =>
           if decide (c ∖ {[websocket]} = ∅) then None
           else Some (c ∖ {[websocket]})
         | None => None
         end
    else active_connections m !! k.
Proof.
  unfold disconnect. cbn [active_connections].
  destruct (active_connections m !! battle_id) as [c|] eqn:Hb.
  - destruct (decide (c ∖ {[websocket]} = ∅)), (decide (k = battle_id)) as [->|Hne].
    + by rewrite lookup_delete_eq.
    + by rewrite lookup_delete_ne.
    + by rewrite lookup_insert_eq.
    + by rewrite lookup_insert_ne.
  - by destruct (decide (k = battle_id)) as [->|Hne].
Qed.

(** X2. [disconnect] is idempotent: a second removal of the same
    connection changes nothing. After a removal the connection is not in
    the set of the battle and the key of the battle and the user is not in
    [user_connections]. *)
Theorem disconnect_idempotent websocket battle_id user_id m :
  let m1 := disconnect websocket battle_id user_id m in
  disconnect websocket battle_id user_id m1 = m1
  ∧ (∀ c, active_connections m1 !! battle_id = Some c → websocket ∉ c)
  ∧ user_connections m1 !! user_key battle_id user_id = None.
Proof.
  intros m1. split; [|split].
  - assert (∀ a b, active_connections a = active_connections b →
              user_connections a = user_connections b → a = b) as Hext.
    { intros [] []; simpl; congruence. }
    apply Hext.
    + apply map_eq. intros k. subst m1.
      rewrite !disconnect_active_lookup.
      destruct (decide (k = battle_id)) as [->|Hne]; [|done].
      rewrite decide_True by done.
      destruct (active_connections m !! battle_id) as [c|]; [|done].
      destruct (decide (c ∖ {[websocket]} = ∅)) as [He|He]; [done|].
      assert (c ∖ {[websocket]} ∖ {[websocket]} = c ∖ {[websocket]}) as ->
        by (apply set_eq; intros x; rewrite !elem_of_difference; tauto).
      by rewrite decide_False.
    + subst m1. unfold disconnect. cbn [user_connections].
      by rewrite delete_delete_eq.
  - intros c. subst m1. rewrite disconnect_active_lookup, decide_True by done.
    destruct (active_connections m !! battle_id) as [c0|]; [|done].
    destruct (decide _); [done|]. intros [= <-].
    rewrite elem_of_difference, elem_of_singleton. tauto.
  - subst m1. unfold disconnect. cbn [user_connections].
    apply lookup_delete_eq.
Qed.

Lemma manager_ext (a b : ConnectionManager) :
  active_connections a = active_connections b →
  user_connections a = user_connections b → a = b.
Proof. destruct a, b; simpl; congruence. Qed.

(** X3. Registering a connection and removing it again restores the
    registry, provided the connection was not registered under the battle
    before, the battle had no empty entry, and the key of the battle and
    the user was free. *)
Theorem connect_disconnect_restores websocket battle_id user_id m :
  (∀ c, active_connections m !! battle_id = Some c → (websocket ∉ c) ∧ c ≠ ∅) →
  user_connections m !! user_key battle_id user_id = None →
  disconnect websocket battle_id user_id (connect websocket battle_id user_id m)
  = m.
Proof.
  intros Hc Hu. apply manager_ext.
  - apply map_eq. intros k.
    rewrite disconnect_active_lookup, connect_active, lookup_insert_eq.
    destruct (decide (k = battle_id)) as [->|Hne];
      [|by rewrite lookup_insert_ne].
    destruct (active_connections m !! battle_id) as [c|] eqn:Hb; simpl.
    + destruct (Hc c eq_refl) as [Hnin Hne].
      assert ((c ∪ {[websocket]}) ∖ {[websocket]} = c) as ->.
      { apply set_eq. intros x.
        rewrite elem_of_difference, elem_of_union, elem_of_singleton.
        split; [tauto|]. intros Hx. split; [tauto|]. by intros ->. }
      by rewrite decide_False.
    + rewrite decide_True; [done|].
      apply set_eq. intros x.
      rewrite elem_of_difference, elem_of_union, elem_of_singleton.
      split; [|by intros ?%not_elem_of_empty].
      intros [[?%not_elem_of_empty|?] ?]; tauto.
  - unfold disconnect, connect. cbn [user_connections].
    rewrite delete_insert_eq. by apply delete_id.
Qed.

Lemma connect_disconnect_restores_witness :
  disconnect 1%positive "b" "anonymous"
    (connect 1%positive "b" "anonymous" new_manager) = new_manager.
Proof.
  apply connect_disconnect_restores.
  - intros c. simpl. by rewrite lookup_empty.
  - simpl. apply lookup_empty.
Defined.

(** X4. [user_connections] is keyed by battle and user only. When two
    connections are registered under the same battle and user, as the
    endpoint does with its fixed user "anonymous", removing the first
    removes the entry that by then belongs to the second, which stays
    registered in the set of the battle. *)
Theorem disconnect_drops_shared_user_key ws1 ws2 battle_id user_id m :
  ws1 ≠ ws2 →
  let m2 := connect ws2 battle_id user_id (connect ws1 battle_id user_id m) in
  let m3 := disconnect ws1 battle_id user_id m2 in
  user_connections m2 !! user_key battle_id user_id = Some ws2
  ∧ user_connections m3 !! user_key battle_id user_id = None
  ∧ ∃ c, active_connections m3 !! battle_id = Some c ∧ ws2 ∈ c ∧ ws1 ∉ c.
Proof.
  intros Hne m2 m3. split; [|split].
  - subst m2. unfold connect at 1. cbn [user_connections].
    apply lookup_insert_eq.
  - subst m3. unfold disconnect. cbn [user_connections].
    apply lookup_delete_eq.
  - subst m3 m2.
    rewrite disconnect_active_lookup, decide_True by done.
    rewrite !connect_active, !lookup_insert_eq. cbn [default from_option id].
    set (c := default ∅ (active_connections m !! battle_id)).
    assert (ws2 ∈ (c ∪ {[ws1]} ∪ {[ws2]}) ∖ {[ws1]}) as Hin.
    { rewrite elem_of_difference, !elem_of_union, !elem_of_singleton.
      split; [tauto|]. by intros ->. }
    destruct (decide _) as [He|He].
    { rewrite He in Hin. by apply not_elem_of_empty in Hin. }
    eexists. split; [done|]. split; [done|].
    rewrite elem_of_difference, elem_of_singleton. tauto.
Qed.

Lemma disconnect_drops_shared_user_key_witness :
  user_connections
    (disconnect 1%positive "b" "anonymous"
       (connect 2%positive "b" "anonymous"
          (connect 1%positive "b" "anonymous" new_manager)))
    !! user_key "b" "anonymous" = None.
Proof.
  apply (disconnect_drops_shared_user_key 1%positive 2%positive
           "b" "anonymous" new_manager).
  done.
Defined.

Lemma broadcast_loop (message_str : string) (send_fails : WebSocket → bool)
    (l : list WebSocket) sent0 disconnected0 :
  foldl (λ '(sent, disconnected) connection,
           if send_fails connection
           then (sent, disconnected ++ [connection])
           else (sent ++ [(connection, message_str)], disconnected))
        (sent0, disconnected0) l
  = (sent0 ++ ((λ c, (c, message_str)) <$>
                 filter (λ c, send_fails c = false) l),
     disconnected0 ++ filter (λ c, send_fails c = true) l).
Proof.
  revert sent0 disconnected0.
  induction l as [|c l IH]; intros sent0 disconnected0.
  { by rewrite !app_nil_r. }
  cbn [foldl]. rewrite !filter_cons.
  destruct (send_fails c) eqn:Hc.
  - rewrite IH, decide_False, decide_True by done.
    by rewrite <- app_assoc.
  - rewrite IH, decide_True, decide_False by done.
    by rewrite fmap_cons, <- app_assoc.
Qed.

Lemma discard_all_lookup (battle_id : string) (l : list WebSocket)
    (a : gmap string (gset WebSocket)) k :
  foldl (λ a connection, alter (λ c, c ∖ {[connection]}) battle_id a) a l !! k
  = if decide (k = battle_id)
    then (λ c, c ∖ list_to_set l) <$> a !! battle_id
    else a !! k.
Proof.
  revert a. induction l as [|x l IH]; intros a; cbn [foldl].
  - destruct (decide (k = battle_id)) as [->|]; [|done].
    destruct (a !! battle_id) as [c|]; [|done].
    rewrite list_to_set_nil. cbn [fmap option_fmap option_map]. f_equal.
    apply set_eq. intros y. rewrite elem_of_difference.
    split; [intros Hy; split; [done|]; apply not_elem_of_empty | tauto].
  - rewrite IH. destruct (decide (k = battle_id)) as [->|Hne].
    + rewrite lookup_alter_eq.
      destruct (a !! battle_id) as [c|]; [|done].
      rewrite list_to_set_cons. cbn [fmap option_fmap option_map]. f_equal.
      apply set_eq. intros y.
      rewrite !elem_of_difference, elem_of_union, elem_of_singleton. tauto.
    + by rewrite lookup_alter_ne.
Qed.

(** X5. A broadcast to a registered battle sends the one serialized text
    to every connection of the battle whose [send_text] does not raise,
    once each, and to nothing else; it leaves exactly those connections
    registered under the battle, keeping the entry of the battle even when
    none is left, and touches neither the other battles nor
    [user_connections]. *)
Theorem broadcast_prunes_failed {Message : Type} (json_dumps : Message → string)
    (send_fails : WebSocket → bool) battle_id message m connections :
  active_connections m !! battle_id = Some connections →
  let res := broadcast_to_battle json_dumps send_fails battle_id message m in
  active_connections res.1 !! battle_id
  = Some (filter (λ ws, send_fails ws = false) connections)
  ∧ (∀ k, k ≠ battle_id →
          active_connections res.1 !! k = active_connections m !! k)
  ∧ user_connections res.1 = user_connections m
  ∧ NoDup res.2.*1
  ∧ (∀ ws text,
       (ws, text) ∈ res.2
       ↔ ws ∈ connections ∧ send_fails ws = false
         ∧ text = json_dumps message).
Proof.
  intros Hb res. subst res. unfold broadcast_to_battle. rewrite Hb.
  rewrite broadcast_loop. cbn [app fst snd active_connections user_connections].
  split; [|split; [|split; [done|split]]].
  - rewrite discard_all_lookup, decide_True, Hb by done. simpl. f_equal.
    apply set_eq. intros ws.
    rewrite elem_of_difference, elem_of_list_to_set, list_elem_of_filter,
      elem_of_filter, elem_of_elements.
    destruct (send_fails ws); split; try tauto.
    + intros [? H]. destruct H. by split.
    + intros [_ ?]. split; [done|]. intros [? _]. done.
  - intros k Hne. by rewrite discard_all_lookup, decide_False.
  - assert (∀ l : list WebSocket,
              ((λ c, (c, json_dumps message)) <$> l).*1 = l) as Hfst.
    { intros l. induction l as [|c l IH]; [done|].
      rewrite !fmap_cons. cbn [fst]. by f_equal. }
    rewrite Hfst.
    apply NoDup_filter, NoDup_elements.
  - intros ws text. rewrite list_elem_of_fmap. split.
    + intros (c & [= -> ->] & Hc).
      apply list_elem_of_filter in Hc as [Hs Hc].
      by rewrite elem_of_elements in Hc.
    + intros (Hc & Hs & ->). exists ws. split; [done|].
      apply list_elem_of_filter. by rewrite elem_of_elements.
Qed.

Lemma broadcast_prunes_failed_witness :
  let m :=
    connect 2%positive "b" "anonymous"
      (connect 1%positive "b" "anonymous" new_manager) in
  let res :=
    broadcast_to_battle (λ text : string, text) (λ ws, bool_decide (ws = 1%positive))
      "b" "ping" m in
  active_connections res.1 !! "b" = Some {[2%positive]}
  ∧ res.2 = [(2%positive, "ping")].
Proof.
  intros m res.
  assert (active_connections m !! "b" = Some {[1%positive; 2%positive]})
    as Hb by (by vm_compute).
  destruct (broadcast_prunes_failed (λ text : string, text)
              (λ ws, bool_decide (ws = 1%positive)) "b" "ping" m
              {[1%positive; 2%positive]} Hb) as (Ha & _).
  split; [|by vm_compute].
  fold res in Ha. rewrite Ha. by vm_compute.
Defined.

(** ** Direct-message room names *)

Lemma py_sorted_pair a b :
  py_sorted [a; b] = if String.leb a b then [a; b] else [b; a].
Proof.
  unfold py_sorted, merge_sort. cbn.
  destruct (decide (str_le a b)) as [H|H]; cbn; unfold str_le in H.
  - by rewrite H.
  - by apply not_true_is_false in H as ->.
Qed.

(** X6. The room name of a direct chat does not depend on who opens it:
    the two user identifiers are sorted before they are joined. *)
Theorem _canonical_dm_name_sym user_a user_b :
  _canonical_dm_name user_a user_b = _canonical_dm_name user_b user_a.
Proof.
  unfold _canonical_dm_name. rewrite !py_sorted_pair.
  destruct (String.leb user_a user_b) eqn:Hab,
           (String.leb user_b user_a) eqn:Hba; try reflexivity.
  - by rewrite (String.leb_antisym _ _ Hab Hba).
  - destruct (String.leb_total user_a user_b); congruence.
Qed.

Lemma colon_split_unique a b c d :
  has_colon a = false → has_colon c = false →
  a +:+ ":" +:+ b = c +:+ ":" +:+ d → a = c ∧ b = d.
Proof.
  change (":" +:+ b) with (String ":" b). change (":" +:+ d) with (String ":" d).
  revert c. induction a as [|x a IH]; intros [|y c] Ha Hc; cbn in *.
  - by intros [= ->].
  - intros [= <- _]. by rewrite Ascii.eqb_refl in Hc.
  - intros [= -> _]. by rewrite Ascii.eqb_refl in Ha.
  - apply orb_false_iff in Ha as [_ Ha]. apply orb_false_iff in Hc as [_ Hc].
    intros [= -> H]. destruct (IH c Ha Hc H) as [-> ->]. done.
Qed.

(** X7. For user identifiers without a colon, such as UUIDs, the room name
    determines the pair of users: two pairs with the same room name are
    the same pair, in one order or the other. *)
Theorem _canonical_dm_name_inj a b c d :
  has_colon a = false → has_colon b = false →
  has_colon c = false → has_colon d = false →
  _canonical_dm_name a b = _canonical_dm_name c d →
  (a = c ∧ b = d) ∨ (a = d ∧ b = c).
Proof.
  intros Ha Hb Hc Hd. unfold _canonical_dm_name, DM_NAME_PREFIX.
  rewrite !py_sorted_pair.
  destruct (String.leb a b), (String.leb c d); cbn;
    intros [= H]; apply colon_split_unique in H as [-> ->]; auto.
Qed.

Lemma _canonical_dm_name_inj_witness :
  ("u1" = "u2" ∧ "u2" = "u1") ∨ ("u1" = "u1" ∧ "u2" = "u2").
Proof.
  apply (_canonical_dm_name_inj "u1" "u2" "u2" "u1"); reflexivity.
Defined.

(** ** The age check *)

(** X8. A date of birth is accepted exactly from the eighteenth
    anniversary on: when the year of birth plus 18 lies before the current
    year, or is the current year and the month and day of birth are not
    after today's. *)
Theorem validate_age_accepts_from_18th_birthday birth_date today :
  validate_age birth_date today = inl birth_date
  ↔ d_year birth_date + 18 < d_year today
    ∨ (d_year birth_date + 18 = d_year today
       ∧ (d_month birth_date < d_month today
          ∨ (d_month birth_date = d_month today
             ∧ d_day birth_date ≤ d_day today))).
Proof.
  unfold validate_age, tuple_lt. cbn [fst snd].
  destruct (d_month today <? d_month birth_date) eqn:Hm;
    destruct (d_month today =? d_month birth_date) eqn:He;
    destruct (d_day today <? d_day birth_date) eqn:Hd;
    cbn [orb andb];
    match goal with |- context [?x <? 18] => destruct (x <? 18) eqn:Ha end;
    (split; [intros H; try discriminate H | intros H; try reflexivity]); lia.
Qed.

(** ** Who may read a battle *)

Lemma _user_can_view_battle_spec battle user_id :
  _user_can_view_battle battle user_id = true
  ↔ status battle = LIVE ∨ status battle = ENDED ∨ involved battle user_id.
Proof.
  unfold _user_can_view_battle, involved. cbn [foldl].
  destruct (bool_decide (status battle ∈ [LIVE; ENDED])) eqn:Hs.
  - apply bool_decide_eq_true in Hs.
    rewrite !elem_of_cons, elem_of_nil in Hs. tauto.
  - apply bool_decide_eq_false in Hs.
    rewrite !elem_of_cons, elem_of_nil in Hs.
    rewrite bool_decide_eq_true, !elem_of_union, elem_of_singleton,
      !elem_of_list_to_set, !list_elem_of_filter.
    tauto.
Qed.

(** What a request never changes in a battle that exists: the battle stays,
    with its creator, participants and invited users, and its accepted
    users are kept. *)
Lemma step_keeps_involved d now op s battle_id battle :
  battles s !! battle_id = Some battle →
  ∃ battle',
    battles (step d now op s).2 !! battle_id = Some battle'
    ∧ creator_id battle' = creator_id battle
    ∧ participant_ids battle' = participant_ids battle
    ∧ invited_user_ids battle' = invited_user_ids battle
    ∧ accepted_user_ids battle ⊆ accepted_user_ids battle'.
Proof.
  intros Hb.
  assert (∀ f (m : gmap string BattleRow),
            (∀ b, creator_id (f b) = creator_id b
                  ∧ participant_ids (f b) = participant_ids b
                  ∧ invited_user_ids (f b) = invited_user_ids b
                  ∧ accepted_user_ids (f b) = accepted_user_ids b) →
            ∀ k, m = alter f k (battles s) →
            ∃ battle',
              m !! battle_id = Some battle'
              ∧ creator_id battle' = creator_id battle
              ∧ participant_ids battle' = participant_ids battle
              ∧ invited_user_ids battle' = invited_user_ids battle
              ∧ accepted_user_ids battle ⊆ accepted_user_ids battle')
    as Halter.
  { intros f m Hf k ->. destruct (decide (k = battle_id)) as [->|Hne].
    - rewrite lookup_alter_eq, Hb. eexists. split; [done|].
      destruct (Hf battle) as (-> & -> & -> & ->). done.
    - rewrite lookup_alter_ne by done. exists battle. done. }
  assert (∀ m : gmap string BattleRow, m = battles s →
            ∃ battle',
              m !! battle_id = Some battle'
              ∧ creator_id battle' = creator_id battle
              ∧ participant_ids battle' = participant_ids battle
              ∧ invited_user_ids battle' = invited_user_ids battle
              ∧ accepted_user_ids battle ⊆ accepted_user_ids battle')
    as Hsame.
  { intros m ->. exists battle. done. }
  destruct op as [new_id creator payload|b u|b u|b u m|b u c]; simpl.
  - destruct (create_user_battle_cases d now new_id creator payload s)
      as (_ & _ & [Hs|(record & _ & _ & Hnone & Hs)]); [by apply Hsame|].
    rewrite Hs. exists battle. split; [|done].
    rewrite lookup_insert_ne; [done|]. intros ->. congruence.
  - destruct (accept_battle_cases now b u s)
      as (_ & _ & [Hs|[Hs|(data & st & Hd & Hu & Hs)]]).
    + by apply Hsame.
    + by apply (Halter (set_status CANCELLED) _ (λ _, ltac:(done)) b).
    + rewrite Hs. destruct (decide (b = battle_id)) as [->|Hne].
      * rewrite lookup_insert_eq. eexists. split; [done|].
        assert (data = battle) as -> by congruence.
        repeat split. cbn [accepted_user_ids set_accepted].
        intros x Hx. rewrite elem_of_elements, elem_of_union,
          elem_of_list_to_set. by left.
      * rewrite lookup_insert_ne by done. exists battle. done.
  - apply Hsame. unfold decline_battle.
    destruct (_load_acceptance_lists b s); [|done]. by destruct (decide _).
  - destruct (upload_battle_submission_cases now b u m s) as (_ & [Hs|Hs]).
    + by apply Hsame.
    + by apply (Halter (set_live LIVE now (now + timedelta_hours 24)) _
                  (λ _, ltac:(done)) b).
  - destruct (vote_battle_cases now b u c s) as (_ & _ & [Hs|(counts & Hs)]).
    + by apply Hsame.
    + by apply (Halter (set_vote_counts counts) _ (λ _, ltac:(done)) b).
Qed.

Lemma run_keeps_involved d ops s battle_id battle :
  battles s !! battle_id = Some battle →
  ∃ battle',
    battles (run d ops s) !! battle_id = Some battle'
    ∧ creator_id battle' = creator_id battle
    ∧ participant_ids battle' = participant_ids battle
    ∧ invited_user_ids battle' = invited_user_ids battle
    ∧ accepted_user_ids battle ⊆ accepted_user_ids battle'.
Proof.
  revert s battle. induction ops as [|[now op] ops IH]; intros s battle Hb.
  { exists battle. done. }
  destruct (step_keeps_involved d now op s battle_id battle Hb)
    as (b1 & Hb1 & Hc1 & Hp1 & Hi1 & Ha1).
  destruct (IH _ b1 Hb1) as (b2 & Hb2 & Hc2 & Hp2 & Hi2 & Ha2).
  exists b2. split; [exact Hb2|].
  split; [congruence|]. split; [congruence|]. split; [congruence|].
  by transitivity (accepted_user_ids b1).
Qed.

(** X9. A battle is never removed, and a user it involves can read it at
    every later point: whatever Create, Accept, Decline, Upload and Vote
    requests are served, [get_battle] answers the creator and every
    participant, invited or accepted user with the battle, in whichever
    status it is, cancelled included. *)
Theorem involved_users_can_always_view d ops s battle_id battle user_id :
  battles s !! battle_id = Some battle →
  user_id ≠ "" →
  involved battle user_id →
  ∃ battle',
    get_battle user_id battle_id (run d ops s) = Ok battle'
    ∧ involved battle' user_id.
Proof.
  intros Hb Hne Hinv.
  destruct (run_keeps_involved d ops s battle_id battle Hb)
    as (b' & Hb' & Hc & Hp & Hi & Ha).
  assert (involved b' user_id) as Hinv'.
  { unfold involved in *. rewrite Hc, Hp, Hi.
    destruct Hinv as [?|[? [?|[?|?]]]]; auto.
    right. split; [done|]. right. right. by apply Ha. }
  exists b'. split; [|done].
  unfold get_battle. rewrite Hb'.
  rewrite decide_False; [done|].
  intros [?|Hv]; [done|].
  assert (_user_can_view_battle b' user_id = true) as Hv'
    by (apply _user_can_view_battle_spec; auto).
  congruence.
Qed.

Lemma involved_users_can_always_view_witness :
  ∃ battle',
    get_battle "u" "b"
      (run (Some ∅) [(7200000001, OpAccept "b" "u")] sample_1v1) = Ok battle'
    ∧ involved battle' "u".
Proof.
  apply (involved_users_can_always_view (Some ∅)
           [(7200000001, OpAccept "b" "u")] sample_1v1 "b" sample_1v1_row "u").
  - apply sample_1v1_lookup.
  - done.
  - right. split; [done|]. right. left. simpl. apply list_elem_of_singleton.
    done.
Defined.

(** ** Follow and like *)

Section Toggle.
Context {A : Type} (P : A → Prop) `{!∀ x, Decision (P x)}.

Lemma filter_not_filter (l : list A) :
  filter P (filter (λ x, ¬ P x) l) = [].
Proof.
  induction l as [|x l IH]; [done|].
  rewrite (filter_cons (λ x, ¬ P x)). destruct (decide (¬ P x)) as [Hn|Hn]; [|done].
  by rewrite filter_cons_False.
Qed.

Lemma filter_not_idemp (l : list A) :
  filter (λ x, ¬ P x) (filter (λ x, ¬ P x) l) = filter (λ x, ¬ P x) l.
Proof.
  induction l as [|x l IH]; [done|].
  rewrite (filter_cons _ x l). destruct (decide (¬ P x)) as [Hn|Hn]; [|done].
  rewrite filter_cons_True by done. by rewrite IH.
Qed.

Lemma filter_nil_not (l : list A) :
  filter P l = [] → filter (λ x, ¬ P x) l = l.
Proof.
  induction l as [|x l IH]; [done|].
  rewrite !filter_cons. destruct (decide (P x)) as [Hp|Hp]; [done|].
  intros Hnil. rewrite decide_True by done. by rewrite IH.
Qed.
End Toggle.

(** X10. [follow_user] is a switch on the rows of [user_follows] from the
    caller to the user: it answers [following = true] exactly when there
    was no such row, and leaves one such row then and none otherwise,
    however many there were. The rows of other pairs are kept, and the
    followed user is notified on a follow only, with the caller as
    reference. *)
Theorem follow_user_toggles now user_id current w :
  let P := λ r, follower_id r = current ∧ following_id r = user_id in
  let res := follow_user now user_id current w in
  (res.1 = true ↔ filter P (user_follows w) = [])
  ∧ length (filter P (user_follows res.2)) = (if res.1 then 1 else 0)%nat
  ∧ filter (λ r, ¬ P r) (user_follows res.2)
    = filter (λ r, ¬ P r) (user_follows w)
  ∧ notifications (store res.2)
    = notifications (store w) ++
      (if res.1
       then [ {| n_user_id := user_id;
                 n_title := "@" +:+ current +:+ " started following you.";
                 n_message := ""; n_type := "follow";
                 n_reference_id := Some current;
                 n_is_read := false; n_created_at := now |} ]
       else [])
  ∧ likes res.2 = likes w
  ∧ private_battle_comments res.2 = private_battle_comments w.
Proof.
  intros P res. subst res. unfold follow_user. fold P.
  destruct (filter P (user_follows w)) as [|r l] eqn:He;
    cbn [fst snd user_follows store likes private_battle_comments].
  - split; [done|]. rewrite !filter_app, He.
    rewrite (filter_cons_True P) by done.
    rewrite (filter_cons_False (λ r, ¬ P r)) by (intros H; by apply H).
    rewrite app_nil_r. done.
  - split; [done|].
    rewrite (filter_not_filter P), (filter_not_idemp P), app_nil_r. done.
Qed.

(** X11. [like_post] is the same switch on the rows of [likes] of the
    caller for the post; from a state in which the caller does not like
    the post, calling it twice likes and unlikes, and restores the table
    as it was. *)
Theorem like_post_toggles now now2 post_id current w :
  let P := λ r, like_post_id r = post_id ∧ like_user_id r = current in
  let res := like_post now post_id current w in
  (res.1 = true ↔ filter P (likes w) = [])
  ∧ length (filter P (likes res.2)) = (if res.1 then 1 else 0)%nat
  ∧ filter (λ r, ¬ P r) (likes res.2) = filter (λ r, ¬ P r) (likes w)
  ∧ user_follows res.2 = user_follows w ∧ store res.2 = store w
  ∧ (filter P (likes w) = [] →
     like_post now2 post_id current res.2 = (false, w)).
Proof.
  intros P res. subst res. unfold like_post at 1 2 3 4 5 6. fold P.
  destruct (filter P (likes w)) as [|r l] eqn:He;
    cbn [fst snd user_follows store likes private_battle_comments].
  - split; [done|]. rewrite !filter_app, He.
    rewrite (filter_cons_True P) by done.
    rewrite (filter_cons_False (λ r, ¬ P r)) by (intros H; by apply H).
    rewrite app_nil_r. do 4 (split; [done|]). intros _.
    unfold like_post. fold P. rewrite He.
    cbn [fst snd user_follows store likes private_battle_comments].
    rewrite !filter_app, He, (filter_cons_True P) by done.
    pose proof (filter_nil_not P _ He) as Hn. unfold P in Hn. cbv beta in Hn.
    cbn [app]. rewrite Hn.
    rewrite (filter_cons_False (λ r, ¬ P r)) by (intros H; by apply H).
    rewrite app_nil_r. by destruct w.
  - split; [done|].
    rewrite (filter_not_filter P), (filter_not_idemp P). done.
Qed.

(** ** Reading notifications *)

Lemma filter_all {A} (P : A → Prop) `{!∀ x, Decision (P x)} (l : list A) :
  Forall P l → filter P l = l.
Proof.
  induction 1 as [|x l Hx _ IH]; [done|].
  by rewrite filter_cons_True, IH.
Qed.

Lemma filter_none {A} (P : A → Prop) `{!∀ x, Decision (P x)} (l : list A) :
  Forall (λ x, ¬ P x) l → filter P l = [].
Proof.
  induction 1 as [|x l Hx _ IH]; [done|].
  by rewrite filter_cons_False, IH.
Qed.

Lemma notify_user_only_battle now u t m k r s :
  k ∈ battle_types →
  only_battle_notifications s →
  only_battle_notifications (notify_user now u t m k r s).
Proof.
  intros Hk Hs. unfold only_battle_notifications, notify_user.
  cbn [notifications]. apply Forall_app. split; [done|].
  by apply Forall_singleton.
Qed.

Lemma notify_each_only_battle now uids t m k r s :
  k ∈ battle_types →
  only_battle_notifications s →
  only_battle_notifications (notify_each now uids t m k r s).
Proof.
  intros Hk Hs. unfold notify_each.
  apply (foldl_invariant only_battle_notifications); [|done].
  intros st u Hst. by apply notify_user_only_battle.
Qed.

Lemma battle_type_challenge_sent : "challenge_sent" ∈ battle_types.
Proof. unfold battle_types. rewrite !elem_of_cons. tauto. Qed.
Lemma battle_type_challenge_accepted : "challenge_accepted" ∈ battle_types.
Proof. unfold battle_types. rewrite !elem_of_cons. tauto. Qed.
Lemma battle_type_battle_started : "battle_started" ∈ battle_types.
Proof. unfold battle_types. rewrite !elem_of_cons. tauto. Qed.
Lemma battle_type_battle_result : "battle_result" ∈ battle_types.
Proof. unfold battle_types. rewrite !elem_of_cons. tauto. Qed.
Lemma battle_type_vote : "vote" ∈ battle_types.
Proof. unfold battle_types. rewrite !elem_of_cons. tauto. Qed.

Lemma step_only_battle_notifications d now op s :
  only_battle_notifications s →
  only_battle_notifications (step d now op s).2.
Proof.
  intros Hs. destruct op as [new_id creator payload|b u|b u|b u m|b u c]; simpl.
  - unfold create_user_battle.
    destruct (UserBattleCreate_errors payload); [|done].
    destruct (battles s !! new_id); [done|]. cbn [snd].
    by apply notify_each_only_battle; [apply battle_type_challenge_sent|].
  - unfold accept_battle.
    destruct (_load_acceptance_lists b s) as [data|]; [|done].
    destruct (deadline_passed now (accept_deadline data)).
    { by apply notify_user_only_battle; [apply battle_type_battle_result|]. }
    destruct (decide _); [done|]. destruct (decide _); [done|].
    match goal with
    | |- context [foldl ?f ?a ?l] =>
        assert (only_battle_notifications (foldl f a l)) as Hloop
    end.
    { apply (foldl_invariant only_battle_notifications).
      - intros st aid Hst. destruct (decide _); [|done].
        by apply notify_user_only_battle;
          [apply battle_type_challenge_accepted|].
      - by apply notify_user_only_battle;
          [apply battle_type_challenge_accepted|]. }
    destruct (_threshold_met _ _); [|done]. cbn [snd].
    by apply notify_each_only_battle; [apply battle_type_battle_started|].
  - unfold decline_battle.
    destruct (_load_acceptance_lists b s); [|done]. by destruct (decide _).
  - unfold upload_battle_submission.
    destruct (_load_acceptance_lists b s) as [data|]; [|done].
    destruct (decide _); [done|].
    destruct m as [[|a url]|]; [done| |done].
    destruct (_ <=? _)%nat; [|done]. cbn [snd].
    by apply notify_each_only_battle; [apply battle_type_battle_started|].
  - unfold vote_battle.
    destruct (existing_vote b u s); [|done]. cbn [battles].
    destruct (battles s !! b) as [battle|]; [|done].
    destruct (vote_counts battle); [|done]. cbn [snd].
    destruct (decide _); [|done].
    by apply notify_user_only_battle; [apply battle_type_vote|].
Qed.

Lemma run_only_battle_notifications d ops s :
  only_battle_notifications s → only_battle_notifications (run d ops s).
Proof.
  revert s. induction ops as [|[now op] ops IH]; intros s Hs; [done|].
  simpl. by apply IH, step_only_battle_notifications.
Qed.

Lemma category_filter_none n : category_filter None n ↔ True.
Proof. unfold category_filter. by rewrite !decide_False by discriminate. Qed.

Lemma category_filter_battles n :
  category_filter (Some "battles") n ↔ n_type n ∈ battle_types.
Proof.
  unfold category_filter.
  rewrite 2!decide_False by discriminate. by rewrite decide_True.
Qed.

Lemma category_filter_feedback n :
  category_filter (Some "feedback") n ↔ n_type n = "private_comment".
Proof. unfold category_filter. by rewrite decide_True. Qed.

Lemma category_filter_social n :
  category_filter (Some "social") n
  ↔ n_type n ∈ ["follow"; "comment"; "mention"; "engagement"].
Proof.
  unfold category_filter.
  rewrite decide_False by discriminate. by rewrite decide_True.
Qed.

Lemma category_filter_system n :
  category_filter (Some "system") n ↔ n_type n = "system".
Proof.
  unfold category_filter.
  rewrite 3!decide_False by discriminate. by rewrite decide_True.
Qed.

Lemma category_filter_transactional n :
  category_filter (Some "transactional") n ↔ n_type n = "payment".
Proof.
  unfold category_filter.
  rewrite 4!decide_False by discriminate. by rewrite decide_True.
Qed.

Lemma battle_types_elem k :
  k ∈ battle_types ↔
  k = "challenge_sent" ∨ k = "challenge_accepted" ∨ k = "battle_started"
  ∨ k = "battle_result" ∨ k = "vote".
Proof.
  unfold battle_types. rewrite !elem_of_cons, elem_of_nil. tauto.
Qed.

(** X12. Every notification the battle flow sends (on create, accept,
    upload and vote) is of a type that the category "battles" selects:
    after any sequence of such requests on an empty store, a user reads
    under "battles" all the notifications they have, and none under
    "feedback", "social", "system" or "transactional". *)
Theorem battle_flow_notifications_are_in_battles d ops current :
  let s := run d ops empty_store in
  get_notifications current (Some "battles") s
  = get_notifications current None s
  ∧ get_notifications current (Some "feedback") s = []
  ∧ get_notifications current (Some "social") s = []
  ∧ get_notifications current (Some "system") s = []
  ∧ get_notifications current (Some "transactional") s = [].
Proof.
  intros s.
  assert (only_battle_notifications s) as Hs.
  { apply run_only_battle_notifications. unfold only_battle_notifications.
    simpl. constructor. }
  unfold only_battle_notifications in Hs.
  assert (Forall (λ n, n_type n ∈ battle_types)
            (filter (λ n, n_user_id n = current) (notifications s))) as Hu.
  { rewrite Forall_forall in *. intros n [_ Hn]%list_elem_of_filter.
    by apply Hs. }
  unfold get_notifications.
  split; [|split; [|split; [|split]]].
  - f_equal. rewrite (filter_all (category_filter (Some "battles"))).
    + rewrite (filter_all (category_filter None)); [done|].
      eapply Forall_impl; [exact Hu|]. intros n _.
      by apply category_filter_none.
    + eapply Forall_impl; [exact Hu|]. intros n Hn.
      by apply category_filter_battles.
  - rewrite filter_none; [done|].
    eapply Forall_impl; [exact Hu|]. intros n Hn.
    rewrite category_filter_feedback. apply battle_types_elem in Hn.
    intros He. rewrite He in Hn.
    destruct Hn as [Hn|[Hn|[Hn|[Hn|Hn]]]]; discriminate Hn.
  - rewrite filter_none; [done|].
    eapply Forall_impl; [exact Hu|]. intros n Hn.
    rewrite category_filter_social, !elem_of_cons, elem_of_nil.
    apply battle_types_elem in Hn.
    intros He.
    destruct Hn as [Hn|[Hn|[Hn|[Hn|Hn]]]]; rewrite Hn in He;
      destruct He as [He|[He|[He|[He|[]]]]]; discriminate He.
  - rewrite filter_none; [done|].
    eapply Forall_impl; [exact Hu|]. intros n Hn.
    rewrite category_filter_system. apply battle_types_elem in Hn.
    intros He. rewrite He in Hn.
    destruct Hn as [Hn|[Hn|[Hn|[Hn|Hn]]]]; discriminate Hn.
  - rewrite filter_none; [done|].
    eapply Forall_impl; [exact Hu|]. intros n Hn.
    rewrite category_filter_transactional. apply battle_types_elem in Hn.
    intros He. rewrite He in Hn.
    destruct Hn as [Hn|[Hn|[Hn|[Hn|Hn]]]]; discriminate Hn.
Qed.

Lemma filter_fmap_commute {A} (P : A → Prop) `{!∀ x, Decision (P x)}
    (f : A → A) (l : list A) :
  (∀ x, P (f x) ↔ P x) → filter P (f <$> l) = f <$> filter P l.
Proof.
  intros Hf. induction l as [|x l IH]; [done|].
  rewrite fmap_cons, !filter_cons.
  destruct (decide (P x)) as [Hx|Hx].
  - rewrite decide_True by (by apply Hf). by rewrite fmap_cons, IH.
  - rewrite decide_False by (by rewrite Hf). exact IH.
Qed.

Lemma mark_all_read_current current (l : list NotificationRow) :
  filter (λ n, n_user_id n = current)
    ((λ n, if decide (n_user_id n = current) then mark_read n else n) <$> l)
  = mark_read <$> filter (λ n, n_user_id n = current) l.
Proof.
  induction l as [|n l IH]; [done|].
  rewrite fmap_cons, !filter_cons.
  destruct (decide (n_user_id n = current)) as [Hn|Hn].
  - rewrite decide_True by done. by rewrite fmap_cons, IH.
  - rewrite decide_False by done. exact IH.
Qed.

Lemma mark_all_read_other current other (l : list NotificationRow) :
  other ≠ current →
  filter (λ n, n_user_id n = other)
    ((λ n, if decide (n_user_id n = current) then mark_read n else n) <$> l)
  = filter (λ n, n_user_id n = other) l.
Proof.
  intros Hne. induction l as [|n l IH]; [done|].
  rewrite fmap_cons, !filter_cons.
  destruct (decide (n_user_id n = current)) as [Hn|Hn].
  - cbn [n_user_id mark_read]. rewrite !decide_False by congruence. exact IH.
  - destruct (decide (n_user_id n = other)); by rewrite IH.
Qed.

(** X13. After [mark_all_read], every notification the user reads, under
    any category, is marked read; they are as many as before, and what
    any other user reads is unchanged. *)
Theorem mark_all_read_marks_own_only current category s :
  Forall (λ n, n_is_read n = true)
    (get_notifications current category (mark_all_read current s))
  ∧ length (get_notifications current category (mark_all_read current s))
    = length (get_notifications current category s)
  ∧ (∀ other, other ≠ current →
       get_notifications other category (mark_all_read current s)
       = get_notifications other category s).
Proof.
  unfold get_notifications, mark_all_read. cbn [notifications].
  split; [|split].
  - rewrite merge_sort_Permutation, mark_all_read_current.
    rewrite (filter_fmap_commute (category_filter category)) by done.
    apply Forall_fmap, Forall_true. done.
  - rewrite !merge_sort_Permutation, mark_all_read_current.
    rewrite (filter_fmap_commute (category_filter category)) by done.
    apply length_fmap.
  - intros other Hne. by rewrite mark_all_read_other.
Qed.

(** ** Private comments *)

Lemma size_filter_alter {A} (P : string * A → Prop) `{!∀ x, Decision (P x)}
    (f : A → A) (i : string) (m : gmap string A) :
  (∀ x, P (i, f x) ↔ P (i, x)) →
  size (filter P (alter f i m)) = size (filter P m).
Proof.
  intros Hf. rewrite <- !size_dom. f_equal.
  apply set_eq. intros k. rewrite !elem_of_dom.
  unfold is_Some. setoid_rewrite map_lookup_filter_Some.
  destruct (decide (k = i)) as [->|Hne].
  - rewrite lookup_alter_eq. destruct (m !! i) as [x|]; simpl.
    + split; intros (y & [= <-] & Hy).
      * exists x. split; [done|]. by apply Hf.
      * exists (f x). split; [done|]. by apply Hf.
    + split; intros (y & [=] & _).
  - by rewrite lookup_alter_ne.
Qed.

Lemma send_private_comment_cases now new_id battle_id author content
    reactions w :
  let res :=
    send_private_comment now new_id battle_id author content reactions w in
  store res.2 = store w ∧ private_battle_comments res.2 = private_battle_comments w
  ∨ ∃ battle record,
      res.1 = Ok ()
      ∧ battles (store w) !! battle_id = Some battle
      ∧ creator_id battle ≠ ""
      ∧ (size (filter (recent_comment battle_id author
                         (now - timedelta_hours 24))
                 (private_battle_comments w)) < 5)%nat
      ∧ private_battle_comments w !! new_id = None
      ∧ c_battle_id record = battle_id ∧ c_author_id record = author
      ∧ c_creator_id record = creator_id battle
      ∧ c_content record = content
      ∧ c_created_at record = now
      ∧ c_is_read record = false ∧ c_is_reported record = false
      ∧ private_battle_comments res.2
        = <[new_id := record]> (private_battle_comments w)
      ∧ battles (store res.2) = battles (store w).
Proof.
  unfold send_private_comment.
  destruct (battles (store w) !! battle_id) as [battle|] eqn:Hb;
    [|left; done].
  destruct (decide (creator_id battle = "")) as [Hc|Hc]; [left; done|].
  destruct (5 <=? _)%nat eqn:Hrate; [left; done|].
  destruct (private_battle_comments w !! new_id) eqn:Hid; [left; done|].
  right. apply Nat.leb_gt in Hrate.
  eexists battle, _. cbn [fst snd store private_battle_comments
                          with_store with_comments].
  repeat split; try done.
Qed.

Lemma comment_step_rate_limited now op w :
  rate_limited w → rate_limited (comment_step now op w).2.
Proof.
  intros Hw. destruct op as [new_id b a content reactions|cur id|id|cur id];
    cbn [comment_step].
  - destruct (send_private_comment_cases now new_id b a content reactions w)
      as [[_ Hsame]|(battle & record & _ & _ & _ & Hrate & Hid & Hrb & Hra
                     & _ & _ & Hrt & _ & _ & Hins & _)].
    { intros b' a' t. rewrite Hsame. apply Hw. }
    intros b' a' t. rewrite Hins.
    destruct (decide (in_window b' a' t (new_id, record))) as [Hin|Hin].
    + rewrite map_filter_insert_True by done.
      rewrite map_size_insert_None
        by (apply map_lookup_filter_None; by left).
      destruct Hin as (Hb' & Ha' & Ht1 & Ht2). cbn [snd] in *.
      assert (filter (in_window b' a' t) (private_battle_comments w)
              ⊆ filter (recent_comment b a (now - timedelta_hours 24))
                  (private_battle_comments w)) as Hsub.
      { apply map_filter_subseteq_ext. intros i x _ (Hxb & Hxa & Hx1 & Hx2).
        unfold recent_comment. cbn [snd] in *.
        split; [congruence|]. split; [congruence|lia]. }
      apply map_subseteq_size in Hsub. lia.
    + rewrite map_filter_insert_not'; [apply Hw|done|].
      intros y Hy. congruence.
  - unfold mark_private_comment_read.
    destruct (private_battle_comments w !! id) as [data|]; [|done].
    destruct (battles (store w) !! c_battle_id data) as [battle|]; [|done].
    destruct (decide _); [done|].
    intros b' a' t. cbn [snd private_battle_comments with_comments].
    rewrite size_filter_alter; [apply Hw|]. by intros x.
  - intros b' a' t.
    cbn [report_private_comment snd private_battle_comments with_comments].
    rewrite size_filter_alter; [apply Hw|]. by intros x.
  - unfold delete_private_comment.
    destruct (private_battle_comments w !! id) as [data|]; [|done].
    destruct (battles (store w) !! c_battle_id data) as [battle|]; [|done].
    destruct (decide _); [done|].
    intros b' a' t. cbn [snd private_battle_comments with_comments].
    rewrite map_filter_delete.
    etransitivity; [|apply (Hw b' a' t)].
    apply map_subseteq_size, delete_subseteq.
Qed.

(** X14. The rate limit of [send_private_comment] bounds every window of
    24 hours, not only the one that ends at a request: starting with no
    comment, whatever comments are sent, marked, reported and deleted and
    at whatever clock readings, no author has more than five comments on
    a battle created within any 24 hours. *)
Theorem private_comments_rate_limited ops w battle_id author t :
  private_battle_comments w = ∅ →
  (size (filter (in_window battle_id author t)
           (private_battle_comments (comment_run ops w))) ≤ 5)%nat.
Proof.
  intros He.
  assert (rate_limited (comment_run ops w)) as H; [|apply H].
  unfold comment_run.
  apply (foldl_invariant rate_limited).
  - intros st [now op] Hst. by apply comment_step_rate_limited.
  - intros b a t'. rewrite He, map_filter_empty, map_size_empty. lia.
Qed.

Lemma private_comments_rate_limited_witness :
  (size (filter (in_window "b" "v" 0%Z)
           (private_battle_comments
              (comment_run
                 [(1%Z, CSend "c1" "b" "v" "one" None);
                  (2%Z, CSend "c2" "b" "v" "two" None);
                  (3%Z, CSend "c3" "b" "v" "three" None);
                  (4%Z, CSend "c4" "b" "v" "four" None);
                  (5%Z, CSend "c5" "b" "v" "five" None);
                  (6%Z, CSend "c6" "b" "v" "six" None)]
                 sample_database))) ≤ 5)%nat.
Proof. by apply private_comments_rate_limited. Defined.

(** The comments a listing returns to the creator of the battle. *)
Lemma list_private_comments_elem current battle_id flt w battle :
  battles (store w) !! battle_id = Some battle →
  creator_id battle = current →
  ∃ l,
    list_private_comments current battle_id flt w = Ok l
    ∧ ∀ id r,
        (id, r) ∈ l
        ↔ private_battle_comments w !! id = Some r
          ∧ c_battle_id r = battle_id
          ∧ comment_filter flt (id, r).
Proof.
  intros Hb Hc. unfold list_private_comments. rewrite Hb.
  rewrite decide_False by (intros H; by apply H).
  eexists. split; [done|]. intros id r.
  rewrite merge_sort_Permutation, !list_elem_of_filter, elem_of_map_to_list.
  cbn [snd]. tauto.
Qed.

(** X15. Only the creator of a battle reads, marks and deletes the private
    comments on it. For a comment whose battle exists, a listing asked by
    anyone else is refused with 403, and under every request that is not
    a mark or a delete of that comment by the creator, the comment stays
    in the table with its battle, author, content, time and read flag. *)
Theorem private_comment_kept_by_non_creators now op w id r battle :
  private_battle_comments w !! id = Some r →
  battles (store w) !! c_battle_id r = Some battle →
  match op with
  | CMarkRead current comment_id | CDelete current comment_id =>
    comment_id = id → current ≠ creator_id battle
  | _ => True
  end →
  (∃ r',
     private_battle_comments (comment_step now op w).2 !! id = Some r'
     ∧ c_battle_id r' = c_battle_id r ∧ c_author_id r' = c_author_id r
     ∧ c_content r' = c_content r ∧ c_created_at r' = c_created_at r
     ∧ c_is_read r' = c_is_read r)
  ∧ (∀ current flt,
       current ≠ creator_id battle →
       list_private_comments current (c_battle_id r) flt w = Raise NotAllowed).
Proof.
  intros Hr Hb Hop. split.
  - destruct op as [new_id b a content reactions|cur cid|cid|cur cid];
      cbn [comment_step].
    + destruct (send_private_comment_cases now new_id b a content reactions w)
        as [[_ Hsame]|(battle' & record & _ & _ & _ & _ & Hid & _ & _ & _ & _
                       & _ & _ & _ & Hins & _)].
      * rewrite Hsame. by exists r.
      * rewrite Hins, lookup_insert_ne by congruence. by exists r.
    + unfold mark_private_comment_read.
      destruct (decide (cid = id)) as [->|Hne].
      * rewrite Hr, Hb. rewrite decide_True by (intros H; by apply Hop).
        by exists r.
      * destruct (private_battle_comments w !! cid) as [data|];
          [|by exists r].
        destruct (battles (store w) !! c_battle_id data); [|by exists r].
        destruct (decide _); [by exists r|].
        cbn [snd private_battle_comments with_comments].
        rewrite lookup_alter_ne by done. by exists r.
    + cbn [report_private_comment snd private_battle_comments with_comments].
      destruct (decide (cid = id)) as [->|Hne].
      * rewrite lookup_alter_eq, Hr. by eexists.
      * rewrite lookup_alter_ne by done. by exists r.
    + unfold delete_private_comment.
      destruct (decide (cid = id)) as [->|Hne].
      * rewrite Hr, Hb. rewrite decide_True by (intros H; by apply Hop).
        by exists r.
      * destruct (private_battle_comments w !! cid) as [data|];
          [|by exists r].
        destruct (battles (store w) !! c_battle_id data); [|by exists r].
        destruct (decide _); [by exists r|].
        cbn [snd private_battle_comments with_comments].
        rewrite lookup_delete_ne by done. by exists r.
  - intros current flt Hne. unfold list_private_comments. rewrite Hb.
    by rewrite decide_True by congruence.
Qed.

Lemma private_comment_kept_by_non_creators_witness :
  ∃ r',
    private_battle_comments
      (comment_step 2 (CDelete "v" "c1")
         (comment_run [(1, CSend "c1" "b" "v" "nice" None)] sample_database)).2
    !! "c1" = Some r'
    ∧ c_content r' = "nice".
Proof.
  destruct (private_comment_kept_by_non_creators 2 (CDelete "v" "c1")
              (comment_run [(1, CSend "c1" "b" "v" "nice" None)] sample_database)
              "c1"
              {| c_battle_id := "b"; c_author_id := "v"; c_creator_id := "c";
                 c_content := "nice"; c_reactions := [];
                 c_is_read := false; c_is_reported := false;
                 c_created_at := 1 |}
              sample_1v1_row)
    as [(r' & Hr' & _ & _ & Hc & _) _].
  - by vm_compute.
  - by vm_compute.
  - intros _. discriminate.
  - exists r'. split; [exact Hr'|exact Hc].
Defined.

(** [s[:n]] is a prefix of [s] that ends where a character ends. *)
Lemma py_prefix_is_prefix n s :
  ∃ rest,
    s = (py_prefix n s +:+ rest)%string
    ∧ match rest with
      | EmptyString => True
      | String c _ => continuation_byte c = false
      end.
Proof.
  revert n. induction s as [|c s IH]; intros n; [by exists EmptyString|].
  cbn [py_prefix]. destruct (continuation_byte c) eqn:Hc.
  - destruct (IH n) as (rest & Hs & Hrest). exists rest.
    split; [|done].
    change (String c s = String c (py_prefix n s +:+ rest)). by f_equal.
  - destruct n as [|n].
    + exists (String c s). split; [done|exact Hc].
    + destruct (IH n) as (rest & Hs & Hrest). exists rest.
      split; [|done].
      change (String c s = String c (py_prefix n s +:+ rest)). by f_equal.
Qed.

(** [s[:n]] has [n] characters, or all of them when [s] has fewer. *)
Lemma py_len_prefix n s : py_len (py_prefix n s) = (n `min` py_len s)%nat.
Proof.
  revert n. induction s as [|c s IH]; intros n; [by destruct n|].
  cbn [py_prefix py_len]. destruct (continuation_byte c) eqn:Hc.
  - cbn [py_len]. by rewrite Hc, IH.
  - destruct n as [|n]; [done|]. cbn [py_len]. rewrite Hc, IH. lia.
Qed.

(** On a string of one-byte characters [s[:n]] is the first [n] bytes. *)
Lemma py_prefix_one_byte n s :
  (∀ c, c ∈ String.list_ascii_of_string s → continuation_byte c = false) →
  py_prefix n s = String.substring 0 n s.
Proof.
  revert n. induction s as [|c s IH]; intros n Hs; [by destruct n|].
  cbn [py_prefix]. rewrite (Hs c) by (cbn; constructor).
  destruct n as [|n]; [done|]. cbn [String.substring].
  rewrite IH; [done|]. intros c' Hc'. apply Hs. cbn. by constructor.
Qed.

(** X16. A private comment that is sent successfully reaches the creator
    of the battle: it is in the creator's listing of unread comments with
    its author and content, neither read nor reported, and the creator is
    sent one notification of type "private_comment" that carries the
    first 140 characters of the content, [content[:140]], whatever the
    number of bytes of a character, and is read back under the category
    "feedback". *)
Theorem sent_private_comment_reaches_creator now new_id battle_id author
    content reactions w :
  let res :=
    send_private_comment now new_id battle_id author content reactions w in
  res.1 = Ok () →
  ∃ battle record l,
    battles (store w) !! battle_id = Some battle
    ∧ list_private_comments (creator_id battle) battle_id "unread" res.2 = Ok l
    ∧ (new_id, record) ∈ l
    ∧ c_author_id record = author ∧ c_content record = content
    ∧ c_is_read record = false ∧ c_is_reported record = false
    ∧ notifications (store res.2)
      = notifications (store w) ++
        [ {| n_user_id := creator_id battle;
             n_title := "Private comment on your battle";
             n_message := py_prefix 140 content;
             n_type := "private_comment";
             n_reference_id := Some battle_id;
             n_is_read := false; n_created_at := now |} ]
    ∧ {| n_user_id := creator_id battle;
         n_title := "Private comment on your battle";
         n_message := py_prefix 140 content;
         n_type := "private_comment";
         n_reference_id := Some battle_id;
         n_is_read := false; n_created_at := now |}
      ∈ get_notifications (creator_id battle) (Some "feedback") (store res.2).
Proof.
  intros res Hok. subst res.
  destruct (send_private_comment_cases now new_id battle_id author content
              reactions w)
    as [[Hs Hsame]|(battle & record & _ & Hb & Hc & _ & Hid & Hrb & Hra & _
                    & Hrc & _ & Hread & Hrep & Hins & Hbat)].
  { exfalso. revert Hok Hsame. unfold send_private_comment.
    destruct (battles (store w) !! battle_id) as [battle|]; [|done].
    destruct (decide _); [done|]. destruct (5 <=? _)%nat; [done|].
    destruct (private_battle_comments w !! new_id) eqn:Hid; [done|].
    cbn [snd private_battle_comments with_store with_comments].
    intros _ Hsame.
    assert (<[new_id:=
               {| c_battle_id := battle_id; c_author_id := author;
                  c_creator_id := creator_id battle; c_content := content;
                  c_reactions := default [] reactions; c_is_read := false;
                  c_is_reported := false; c_created_at := now |}]>
              (private_battle_comments w) !! new_id
            = private_battle_comments w !! new_id) as Heq by (by rewrite Hsame).
    rewrite lookup_insert_eq, Hid in Heq. discriminate. }
  destruct (list_private_comments_elem (creator_id battle) battle_id "unread"
              _ battle (eq_trans (f_equal (.!! battle_id) Hbat) Hb) eq_refl)
    as (l & Hl & Hel).
  exists battle, record, l.
  split; [done|]. split; [done|].
  split.
  { apply Hel. rewrite Hins, lookup_insert_eq. split; [done|]. split; [done|].
    unfold comment_filter. by rewrite decide_True. }
  do 4 (split; [done|]).
  assert (notifications
            (store (send_private_comment now new_id battle_id author content
                      reactions w).2)
          = notifications (store w) ++
            [ {| n_user_id := creator_id battle;
                 n_title := "Private comment on your battle";
                 n_message := py_prefix 140 content;
                 n_type := "private_comment";
                 n_reference_id := Some battle_id;
                 n_is_read := false; n_created_at := now |} ]) as Hn.
  { unfold send_private_comment. rewrite Hb.
    rewrite decide_False by done.
    destruct (5 <=? _)%nat eqn:Hrate.
    { exfalso. revert Hok. unfold send_private_comment. rewrite Hb.
      rewrite decide_False by done. by rewrite Hrate. }
    by rewrite Hid. }
  split; [exact Hn|].
  unfold get_notifications.
  rewrite merge_sort_Permutation, !list_elem_of_filter, Hn.
  split; [by apply category_filter_feedback|]. split; [done|].
  apply elem_of_app. right. by apply list_elem_of_singleton.
Qed.

Lemma sent_private_comment_reaches_creator_witness :
  py_len sample_long_content = 141%nat
  ∧ String.length sample_long_content = 282%nat
  ∧ ∃ l,
      list_private_comments "c" "b" "unread"
        (send_private_comment 1 "c1" "b" "v" sample_long_content None
           sample_database).2 = Ok l
      ∧ (∃ record,
           ("c1", record) ∈ l ∧ c_content record = sample_long_content)
      ∧ ∃ n,
          n ∈ notifications
                (store (send_private_comment 1 "c1" "b" "v"
                          sample_long_content None sample_database).2)
          ∧ n_message n = String.concat "" (replicate 140 "é")
          ∧ py_len (n_message n) = 140%nat.
Proof.
  split; [by vm_compute|]. split; [by vm_compute|].
  destruct (sent_private_comment_reaches_creator 1 "c1" "b" "v"
              sample_long_content None sample_database)
    as (battle & record & l & Hb & Hl & Hin & _ & Hc & _ & _ & Hn & _);
    [by vm_compute|].
  assert (battle = sample_1v1_row) as ->.
  { assert (Some battle = Some sample_1v1_row) as [= ->]; [|done].
    rewrite <- Hb. by vm_compute. }
  exists l. split; [exact Hl|].
  split; [exact (ex_intro _ record (conj Hin Hc))|].
  eexists. split.
  { rewrite Hn. apply elem_of_app. right. by apply list_elem_of_singleton. }
  cbn [n_message]. split; by vm_compute.
Defined.

(** X17. What the creator of the battle does to a comment shows in the
    listings: once marked read, the comment is no longer among the unread
    ones; once deleted, it is in no listing and the other comments are as
    they were; and once reported, by whoever, it is among the reported
    ones. *)
Theorem creator_actions_show_in_listings current id w r battle :
  private_battle_comments w !! id = Some r →
  battles (store w) !! c_battle_id r = Some battle →
  creator_id battle = current →
  (mark_private_comment_read current id w).1 = Ok ()
  ∧ (∀ l r',
       list_private_comments current (c_battle_id r) "unread"
         (mark_private_comment_read current id w).2 = Ok l →
       (id, r') ∉ l)
  ∧ (delete_private_comment current id w).1 = Ok ()
  ∧ (∀ flt l r',
       list_private_comments current (c_battle_id r) flt
         (delete_private_comment current id w).2 = Ok l →
       (id, r') ∉ l)
  ∧ (∀ other,
       other ≠ id →
       private_battle_comments (delete_private_comment current id w).2 !! other
       = private_battle_comments w !! other)
  ∧ (∃ l,
       list_private_comments current (c_battle_id r) "reported"
         (report_private_comment id w).2 = Ok l
       ∧ (id, set_comment_reported r) ∈ l).
Proof.
  intros Hr Hb Hc.
  assert (mark_private_comment_read current id w
          = (Ok (), with_comments (alter set_comment_read id) w)) as Hmark.
  { unfold mark_private_comment_read. rewrite Hr, Hb.
    by rewrite decide_False by (intros H; by apply H). }
  assert (delete_private_comment current id w
          = (Ok (), with_comments (delete id) w)) as Hdel.
  { unfold delete_private_comment. rewrite Hr, Hb.
    by rewrite decide_False by (intros H; by apply H). }
  rewrite Hmark, Hdel. cbn [fst snd report_private_comment].
  split; [done|]. split; [|split; [done|split; [|split]]].
  - intros l r' Hl.
    destruct (list_private_comments_elem current (c_battle_id r) "unread"
                (with_comments (alter set_comment_read id) w) battle Hb Hc)
      as (l' & Hl' & Hel).
    rewrite Hl' in Hl. injection Hl as ->.
    rewrite Hel. cbn [private_battle_comments with_comments].
    rewrite lookup_alter_eq, Hr. intros ([= <-] & _ & Hf).
    unfold comment_filter in Hf. rewrite decide_True in Hf by done.
    discriminate Hf.
  - intros flt l r' Hl.
    destruct (list_private_comments_elem current (c_battle_id r) flt
                (with_comments (delete id) w) battle Hb Hc)
      as (l' & Hl' & Hel).
    rewrite Hl' in Hl. injection Hl as ->.
    rewrite Hel. cbn [private_battle_comments with_comments].
    rewrite lookup_delete_eq. by intros [? _].
  - intros other Hne. cbn [private_battle_comments with_comments].
    by rewrite lookup_delete_ne.
  - destruct (list_private_comments_elem current (c_battle_id r) "reported"
                (with_comments (alter set_comment_reported id) w) battle Hb Hc)
      as (l & Hl & Hel).
    exists l. split; [exact Hl|]. apply Hel.
    cbn [private_battle_comments with_comments].
    rewrite lookup_alter_eq, Hr. split; [done|]. split; [done|].
    unfold comment_filter. rewrite decide_False by discriminate.
    by rewrite decide_True.
Qed.

Lemma creator_actions_show_in_listings_witness :
  private_battle_comments
    (delete_private_comment "c" "c1"
       (comment_run [(1, CSend "c1" "b" "v" "nice" None)] sample_database)).2
  !! "c1" = None
  ∧ (delete_private_comment "c" "c1"
       (comment_run [(1, CSend "c1" "b" "v" "nice" None)] sample_database)).1
    = Ok ().
Proof.
  destruct (creator_actions_show_in_listings "c" "c1"
              (comment_run [(1, CSend "c1" "b" "v" "nice" None)] sample_database)
              {| c_battle_id := "b"; c_author_id := "v"; c_creator_id := "c";
                 c_content := "nice"; c_reactions := [];
                 c_is_read := false; c_is_reported := false;
                 c_created_at := 1 |}
              sample_1v1_row)
    as (_ & _ & Hd & _).
  - by vm_compute.
  - by vm_compute.
  - done.
  - split; [by vm_compute|exact Hd].
Defined.

Lemma like_post_toggles_witness :
  like_post 2 "p" "u" (like_post 1 "p" "u" sample_database).2
  = (false, sample_database).
Proof.
  apply (like_post_toggles 1 2 "p" "u" sample_database). done.
Defined.

(** ** Who is notified by the battle flow *)

Lemma notify_each_notifications now uids t m k r s :
  notifications (notify_each now uids t m k r s)
  = notifications s ++ (notification now t m k r <$> uids).
Proof.
  unfold notify_each. revert s.
  induction uids as [|u uids IH]; intros s; cbn [foldl fmap list_fmap].
  - by rewrite app_nil_r.
  - rewrite IH. cbn [notifications notify_user]. by rewrite <- app_assoc.
Qed.

Lemma guarded_notify_notifications (P : string → Prop)
    `{!∀ x, Decision (P x)} now t m k r l s :
  notifications
    (foldl (λ st aid, if decide (P aid) then notify_user now aid t m k r st
                      else st) s l)
  = notifications s ++ (notification now t m k r <$> filter P l).
Proof.
  revert s. induction l as [|u l IH]; intros s; cbn [foldl].
  - by rewrite app_nil_r.
  - rewrite IH, filter_cons. destruct (decide (P u)); [|done].
    cbn [notifications notify_user]. by rewrite fmap_cons, <- app_assoc.
Qed.

(** X18. A successful Create stores the battle under the new identifier,
    INVITED, with nobody accepted, no start or end time and the deadline
    two hours after the clock reading, and sends one "challenge_sent"
    notification per entry of the invited list, in its order, to nobody
    else; the tables of votes and submissions are untouched. *)
Theorem create_user_battle_notifies_invitees d now new_id creator payload s r s' :
  create_user_battle d now new_id creator payload s = (Ok r, s') →
  ∃ row,
    r = BattleCreated new_id row
    ∧ battles s' = <[new_id := row]> (battles s)
    ∧ battles s !! new_id = None
    ∧ creator_id row = creator ∧ status row = INVITED
    ∧ invited_user_ids row = p_invited_user_ids payload
    ∧ accepted_user_ids row = []
    ∧ accept_deadline row = Some (now + 7200000000)
    ∧ start_time row = None ∧ end_time row = None
    ∧ notifications s'
      = notifications s ++
        (notification now ("@" +:+ creator +:+ " challenged you.")
           "Accept within 2 hours to join." "challenge_sent" (Some new_id)
         <$> p_invited_user_ids payload)
    ∧ votes s' = votes s ∧ battle_submissions s' = battle_submissions s.
Proof.
  unfold create_user_battle.
  destruct (UserBattleCreate_errors payload); [|discriminate].
  destruct (battles s !! new_id) eqn:Hid; [discriminate|].
  intros [= <- <-]. eexists. split; [reflexivity|].
  rewrite notify_each_battles, notify_each_votes, notify_each_submissions,
    notify_each_notifications.
  cbn [battles votes battle_submissions notifications creator_id status
       invited_user_ids accepted_user_ids accept_deadline start_time end_time].
  repeat split.
Qed.

Lemma create_user_battle_notifies_invitees_witness :
  n_user_id <$> notifications sample_1v1 = ["u"].
Proof.
  destruct (create_user_battle_notifies_invitees (Some ∅) 0 "b" "c"
              (sample_payload "1v1" ["u"]) empty_store
              (BattleCreated "b" sample_1v1_row) sample_1v1)
    as (row & _ & _ & _ & _ & _ & _ & _ & _ & _ & _ & Hn & _).
  - by vm_compute.
  - rewrite Hn. reflexivity.
Defined.

Lemma accept_battle_new_notifications now battle_id uid s data :
  battles s !! battle_id = Some data →
  deadline_passed now (accept_deadline data) = false →
  uid ∈ invited_user_ids data →
  uid ∉ accepted_user_ids data →
  let accepted : gset string := list_to_set (accepted_user_ids data) ∪ {[uid]} in
  notifications (accept_battle now battle_id uid s).2
  = notifications s ++
    [notification now (tag_from_user uid +:+ " accepted your battle.")
       "Upload your photo to start." "challenge_accepted" (Some battle_id)
       (creator_id data)] ++
    (notification now (tag_from_user uid +:+ " joined the battle.")
       "Upload your photo to start." "challenge_accepted" (Some battle_id)
     <$> filter (λ aid, aid ≠ creator_id data ∧ aid ≠ uid) (elements accepted))
    ++
    (if _threshold_met (mode data) (size accepted)
     then notification now "Battle is ready to upload."
            "Upload your image to begin." "battle_started" (Some battle_id)
          <$> (elements accepted ++ [creator_id data])
     else []).
Proof.
  intros Hb Hd Hinv Hacc accepted.
  unfold accept_battle, _load_acceptance_lists. rewrite Hb, Hd.
  rewrite decide_False by (rewrite elem_of_list_to_set; tauto).
  rewrite decide_False by (by rewrite elem_of_list_to_set).
  fold accepted.
  destruct (_threshold_met (mode data) (size accepted)); cbn [snd].
  - rewrite notify_each_notifications. cbn [notifications update_battle].
    rewrite (guarded_notify_notifications
               (λ aid, aid ≠ creator_id data ∧ aid ≠ uid)).
    cbn [notifications notify_user update_battle].
    by rewrite <- !app_assoc.
  - rewrite (guarded_notify_notifications
               (λ aid, aid ≠ creator_id data ∧ aid ≠ uid)).
    cbn [notifications notify_user update_battle].
    by rewrite app_nil_r, <- !app_assoc.
Qed.

Lemma filter_notification_type now t m k r (k' : string) (us : list string) :
  filter (λ n, n_type n = k') (notification now t m k r <$> us)
  = if decide (k = k') then notification now t m k r <$> us else [].
Proof.
  induction us as [|u us IH]; [by destruct (decide _)|].
  rewrite fmap_cons, filter_cons, IH. cbn [n_type notification].
  by destruct (decide (k = k')).
Qed.

(** X19. An Accept notifies only the creator of the battle and users who
    are accepted once it has been served: an invited user who has not
    accepted is sent nothing. A caller who is already accepted triggers no
    notification at all, and the acceptance that takes the battle to
    UPLOADING sends the "battle_started" notification to every accepted
    user and then to the creator. *)
Theorem accept_notifies_participants_only now battle_id uid s data :
  battles s !! battle_id = Some data →
  ∃ l data',
    notifications (accept_battle now battle_id uid s).2 = notifications s ++ l
    ∧ battles (accept_battle now battle_id uid s).2 !! battle_id = Some data'
    ∧ (∀ n, n ∈ l →
            n_user_id n = creator_id data
            ∨ n_user_id n ∈ accepted_user_ids data')
    ∧ (deadline_passed now (accept_deadline data) = false →
       uid ∈ accepted_user_ids data → l = [])
    ∧ ((accept_battle now battle_id uid s).1 = Ok Accepted →
       uid ∉ accepted_user_ids data →
       status data' = UPLOADING →
       n_user_id <$> filter (λ n, n_type n = "battle_started") l
       = accepted_user_ids data' ++ [creator_id data]).
Proof.
  intros Hb.
  destruct (deadline_passed now (accept_deadline data)) eqn:Hd.
  { unfold accept_battle, _load_acceptance_lists. rewrite Hb, Hd.
    cbn [fst snd notifications battles notify_user update_battle].
    do 2 eexists. split; [done|].
    split; [by rewrite lookup_alter_eq, Hb|].
    split; [|split; [done|discriminate]].
    intros n ->%list_elem_of_singleton. by left. }
  destruct (decide (uid ∈ invited_user_ids data)) as [Hinv|Hinv].
  2:{ unfold accept_battle, _load_acceptance_lists. rewrite Hb, Hd.
      rewrite decide_True by (by rewrite elem_of_list_to_set).
      exists [], data. cbn [fst snd]. rewrite app_nil_r.
      split; [done|]. split; [done|].
      split; [by intros n ?%elem_of_nil|]. split; [done|discriminate]. }
  destruct (decide (uid ∈ accepted_user_ids data)) as [Hin|Hin].
  { unfold accept_battle, _load_acceptance_lists. rewrite Hb, Hd.
    rewrite decide_False by (rewrite elem_of_list_to_set; tauto).
    rewrite decide_True by (by rewrite elem_of_list_to_set).
    exists [], data. cbn [fst snd]. rewrite app_nil_r.
    split; [done|]. split; [done|].
    split; [by intros n ?%elem_of_nil|]. split; [done|]. by intros _ ?. }
  destruct (accept_battle_new now battle_id uid s data Hb Hd Hinv Hin)
    as (s' & Heq & Hbat & _).
  rewrite (accept_battle_new_notifications now battle_id uid s data Hb Hd Hinv Hin).
  rewrite Heq. cbn [fst snd]. rewrite Hbat, lookup_insert_eq.
  set (accepted := (list_to_set (accepted_user_ids data) ∪ {[uid]} : gset string)).
  do 2 eexists. split; [done|]. split; [done|].
  cbn [accepted_user_ids status set_accepted].
  split; [|split; [by intros _ ?|]].
  - intros n. rewrite !elem_of_app, list_elem_of_singleton.
    intros [->|[Hn|Hn]]; [by left| |].
    + apply list_elem_of_fmap in Hn as (u & -> & Hu).
      apply list_elem_of_filter in Hu as [_ Hu]. by right.
    + destruct (_threshold_met _ _); [|by apply elem_of_nil in Hn].
      apply list_elem_of_fmap in Hn as (u & -> & Hu).
      apply elem_of_app in Hu as [Hu|Hu%list_elem_of_singleton];
        [by right|left; by subst].
  - intros _ _ Hst.
    destruct (_threshold_met (mode data) (size accepted)); [|discriminate].
    rewrite !filter_app, (filter_notification_type _ _ _ "challenge_accepted").
    rewrite (filter_cons_False _ (notification _ _ _ "challenge_accepted" _ _))
      by (cbn; discriminate).
    rewrite decide_False by discriminate.
    rewrite filter_notification_type, decide_True by done.
    rewrite filter_nil. cbn [app]. rewrite <- list_fmap_compose.
    clear. induction (elements accepted ++ [creator_id data]) as [|u l IH];
      [done|]. by rewrite fmap_cons, IH.
Qed.

Lemma accept_notifies_participants_only_witness :
  ∃ l,
    notifications (accept_battle 5 "b" "u" sample_1v1).2
    = notifications sample_1v1 ++ l
    ∧ ∀ n, n ∈ l → n_user_id n = "c" ∨ n_user_id n = "u".
Proof.
  destruct (accept_notifies_participants_only 5 "b" "u" sample_1v1
              sample_1v1_row sample_1v1_lookup)
    as (l & data' & Hl & Hb & Hrec & _).
  exists l. split; [exact Hl|]. intros n Hn.
  destruct (Hrec n Hn) as [?|Hin]; [by left|right].
  assert (Some data' = battles (accept_battle 5 "b" "u" sample_1v1).2 !! "b")
    as Hcomp by (by rewrite Hb).
  vm_compute in Hcomp. injection Hcomp as ->.
  by apply list_elem_of_singleton in Hin.
Defined.

(** ** The two tallies of a battle *)

Lemma vote_battle_precise now battle_id uid c s :
  existing_vote battle_id uid s = [] →
  let s' := (vote_battle now battle_id uid c s).2 in
  votes s' = votes s ++
    [ {| vote_battle_id := battle_id; vote_user_id := uid;
         choice := c; vote_created_at := now |} ]
  ∧ battles s'
    = match battles s !! battle_id with
      | Some battle =>
        match vote_counts battle with
        | Some counts =>
          <[battle_id :=
              set_vote_counts (<[c := default 0 (counts !! c) + 1]> counts)
                battle]> (battles s)
        | None => battles s
        end
      | None => battles s
      end.
Proof.
  intros He. unfold vote_battle. rewrite He. cbn [battles].
  destruct (battles s !! battle_id) as [battle|] eqn:Hb; [|done].
  destruct (vote_counts battle) as [counts|]; [|done].
  cbn [snd]. split; [by destruct (decide _)|].
  assert (∀ s0 : Store,
            battles (if decide (creator_id battle ≠ "" ∧ creator_id battle ≠ uid)
                     then notify_user now (creator_id battle)
                            (tag_from_user uid +:+ " voted in your battle.") ""
                            "vote" (Some battle_id) s0
                     else s0) = battles s0) as ->
    by (intros s0; by destruct (decide _)).
  cbn [battles update_battle].
  apply map_eq. intros k. destruct (decide (k = battle_id)) as [->|Hne].
  - by rewrite lookup_alter_eq, lookup_insert_eq, Hb.
  - by rewrite lookup_alter_ne, lookup_insert_ne.
Qed.

Lemma step_counts_agree now op s :
  (match op with
   | OpVote battle_id _ _ => is_Some (battles s !! battle_id)
   | _ => True
   end) →
  counts_agree s ∧ no_orphan_votes s →
  counts_agree (step (Some ∅) now op s).2
  ∧ no_orphan_votes (step (Some ∅) now op s).2.
Proof.
  intros Hop [Hc Ho].
  (* requests that leave the votes alone and alter rows without touching
     their counts *)
  assert (∀ s' f k,
            votes s' = votes s →
            (∀ b, vote_counts (f b) = vote_counts b) →
            battles s' = alter f k (battles s) →
            counts_agree s' ∧ no_orphan_votes s') as Halter.
  { intros s' f k Hv Hf Hbat. split.
    - intros bid b counts c. rewrite Hbat, Hv.
      destruct (decide (k = bid)) as [->|Hne].
      + rewrite lookup_alter_eq.
        destruct (battles s !! bid) as [b0|] eqn:Hb0; [|done].
        intros [= <-]. rewrite Hf. by apply Hc.
      + rewrite lookup_alter_ne by done. apply Hc.
    - intros v. rewrite Hbat, Hv. intros Hin.
      apply lookup_alter_is_Some. by apply Ho. }
  assert (∀ s', votes s' = votes s → battles s' = battles s →
            counts_agree s' ∧ no_orphan_votes s') as Hsame.
  { intros s' Hv Hbat. split.
    - intros bid b counts c. rewrite Hbat, Hv. apply Hc.
    - intros v. rewrite Hbat, Hv. apply Ho. }
  destruct op as [new_id creator payload|b u|b u|b u m|b u c]; simpl.
  - destruct (create_user_battle_cases (Some ∅) now new_id creator payload s)
      as (Hv & _ & [Hs|(record & _ & _ & Hnone & Hs)]); [by apply Hsame|].
    assert (vote_counts record = Some ∅) as Hrec.
    { revert Hs. unfold create_user_battle.
      destruct (UserBattleCreate_errors payload);
        [|cbn [snd]; intros Hs; exfalso;
          assert (battles s !! new_id = <[new_id:=record]> (battles s) !! new_id)
            as Habs by (by rewrite <- Hs);
          rewrite lookup_insert_eq, Hnone in Habs; discriminate].
      rewrite Hnone. cbn [snd]. rewrite notify_each_battles. cbn [battles].
      intros Hs.
      assert (<[new_id:=record]> (battles s) !! new_id = Some record) as Hl
        by apply lookup_insert_eq.
      rewrite <- Hs, lookup_insert_eq in Hl. by injection Hl as <-. }
    split.
    + intros bid b counts c. rewrite Hs, Hv.
      destruct (decide (new_id = bid)) as [->|Hne].
      * rewrite lookup_insert_eq. intros [= <-]. rewrite Hrec. intros [= <-].
        rewrite lookup_empty. cbn [default from_option id].
        rewrite (filter_none _ (votes s)); [done|].
        apply Forall_forall. intros v Hin [Hb _].
        destruct (Ho v Hin) as [x Hx]. congruence.
      * rewrite lookup_insert_ne by done. apply Hc.
    + intros v. rewrite Hs, Hv. intros Hin.
      destruct (decide (new_id = vote_battle_id v)) as [->|Hne].
      * by rewrite lookup_insert_eq.
      * rewrite lookup_insert_ne by done. by apply Ho.
  - destruct (accept_battle_cases now b u s)
      as (Hv & _ & [Hs|[Hs|(data & st & Hd & Hu & Hs)]]).
    + by apply Hsame.
    + by apply (Halter _ (set_status CANCELLED) b).
    + apply (Halter _ (set_accepted
                         (elements (list_to_set (accepted_user_ids data) ∪ {[u]}
                                    : gset string)) st) b); [done|done|].
      rewrite Hs. apply map_eq. intros k.
      destruct (decide (k = b)) as [->|Hne].
      * by rewrite lookup_insert_eq, lookup_alter_eq, Hd.
      * by rewrite lookup_insert_ne, lookup_alter_ne.
  - apply Hsame; unfold decline_battle;
      (destruct (_load_acceptance_lists b s); [|done]); by destruct (decide _).
  - destruct (upload_battle_submission_cases now b u m s) as (Hv & [Hs|Hs]).
    + by apply Hsame.
    + by apply (Halter _ (set_live LIVE now (now + timedelta_hours 24)) b).
  - destruct (existing_vote b u s) as [|v0 l0] eqn:He.
    2:{ rewrite vote_battle_existing by (by rewrite He). by split. }
    destruct (vote_battle_precise now b u c s He) as [Hv Hbat].
    destruct Hop as [battle Hb]. rewrite Hb in Hbat.
    split.
    + intros bid row counts c'. rewrite Hv, filter_app, length_app.
      destruct (vote_counts battle) as [counts0|] eqn:Hvc; rewrite Hbat.
      * destruct (decide (b = bid)) as [->|Hne].
        -- rewrite lookup_insert_eq. intros [= <-]. cbn [vote_counts set_vote_counts].
           intros [= <-].
           destruct (decide (c = c')) as [->|Hcc].
           ++ rewrite lookup_insert_eq, filter_cons_True by done.
              cbn [default from_option id length filter].
              rewrite (Hc bid battle counts0 c' Hb Hvc). simpl. lia.
           ++ rewrite lookup_insert_ne by done.
              rewrite filter_cons_False by (cbn; intros [_ ?]; congruence).
              rewrite (Hc bid battle counts0 c' Hb Hvc). simpl. lia.
        -- rewrite lookup_insert_ne by done. intros Hrow Hcounts.
           rewrite filter_cons_False by (cbn; intros [? _]; congruence).
           rewrite (Hc bid row counts c' Hrow Hcounts). simpl. lia.
      * intros Hrow Hcounts.
        destruct (decide (b = bid)) as [->|Hne]; [congruence|].
        rewrite filter_cons_False by (cbn; intros [? _]; congruence).
        rewrite (Hc bid row counts c' Hrow Hcounts). simpl. lia.
    + intros v. rewrite Hv, elem_of_app, list_elem_of_singleton.
      assert (∀ k, is_Some (battles s !! k) →
                   is_Some (battles (vote_battle now b u c s).2 !! k)) as Hkeep.
      { intros k Hk. rewrite Hbat.
        destruct (vote_counts battle); [|done].
        destruct (decide (b = k)) as [->|Hne].
        - by rewrite lookup_insert_eq.
        - by rewrite lookup_insert_ne. }
      intros [Hin| ->]; apply Hkeep; [by apply Ho|].
      cbn [vote_battle_id]. by rewrite Hb.
Qed.

Lemma run_counts_agree ops s :
  votes_on_existing (Some ∅) ops s →
  counts_agree s ∧ no_orphan_votes s →
  counts_agree (run (Some ∅) ops s) ∧ no_orphan_votes (run (Some ∅) ops s).
Proof.
  revert s. induction ops as [|[now op] ops IH]; intros s Hops Hs; [done|].
  destruct Hops as [Hop Hrest]. simpl.
  apply IH; [exact Hrest|]. by apply step_counts_agree.
Qed.

(** X20. The counts kept on a battle row and the table of votes tell the
    same tally. After any sequence of requests on an empty store, in a
    schema whose counts start empty and with every Vote made on a battle
    that exists, the count of each choice on the row is the number of
    stored votes of the battle with that choice, and so the counts of "A"
    and "B" are those that Results computes. *)
Theorem vote_counts_agree_with_votes ops battle_id battle counts :
  votes_on_existing (Some ∅) ops empty_store →
  battles (run (Some ∅) ops empty_store) !! battle_id = Some battle →
  vote_counts battle = Some counts →
  let s := run (Some ∅) ops empty_store in
  (∀ c,
     default 0 (counts !! c)
     = Z.of_nat
         (length (filter (λ v, vote_battle_id v = battle_id ∧ choice v = c)
                    (votes s))))
  ∧ Z.of_nat (option_a_votes (get_battle_results_internal battle_id s))
    = default 0 (counts !! "A")
  ∧ Z.of_nat (option_b_votes (get_battle_results_internal battle_id s))
    = default 0 (counts !! "B").
Proof.
  intros Hops Hb Hcounts s.
  destruct (run_counts_agree ops empty_store Hops) as [Hc _].
  { split.
    - intros k b cs c. simpl. by rewrite lookup_empty.
    - intros v. simpl. by intros ?%elem_of_nil. }
  fold s in Hc, Hb.
  split; [intros c; by apply (Hc battle_id battle counts c)|].
  cbn [option_a_votes option_b_votes get_battle_results_internal].
  unfold votes_of. rewrite !list_filter_filter.
  rewrite (Hc battle_id battle counts "A" Hb Hcounts),
    (Hc battle_id battle counts "B" Hb Hcounts).
  split; do 2 f_equal; apply list_filter_iff; intros v; tauto.
Qed.

Lemma vote_counts_agree_with_votes_witness :
  ∃ counts,
    (vote_counts <$> (battles sample_four_votes !! "b")) = Some (Some counts)
    ∧ default 0 (counts !! "A") = 3 ∧ default 0 (counts !! "B") = 1.
Proof.
  exists {["A" := 3; "B" := 1]}. split; [by vm_compute|].
  destruct (vote_counts_agree_with_votes
              [(0, OpCreate "b" "c" (sample_payload "1v1" ["u"]));
               (5, OpVote "b" "v1" "A"); (6, OpVote "b" "v2" "A");
               (7, OpVote "b" "v3" "A"); (8, OpVote "b" "v4" "B")]
              "b"
              (set_vote_counts {["A" := 3; "B" := 1]} sample_1v1_row)
              {["A" := 3; "B" := 1]})
    as (_ & Ha & Hb).
  - cbn [votes_on_existing]. repeat split; eexists; vm_compute; reflexivity.
  - by vm_compute.
  - done.
  - split; [rewrite <- Ha|rewrite <- Hb]; by vm_compute.
Defined.

(** ** Invariants of the stored battles *)

Lemma elem_of_upsert_submission row r rows :
  r ∈ upsert_submission row rows → r = row ∨ r ∈ rows.
Proof.
  induction rows as [|x rows IH]; cbn [upsert_submission].
  - intros ->%list_elem_of_singleton. by left.
  - destruct (decide _).
    + rewrite !elem_of_cons. tauto.
    + rewrite !elem_of_cons. intros [->|Hr]; [tauto|].
      destruct (IH Hr); tauto.
Qed.

Lemma step_submissions d now op s r :
  r ∈ battle_submissions (step d now op s).2 →
  r ∈ battle_submissions s
  ∨ ∃ data,
      battles s !! sub_battle_id r = Some data
      ∧ (sub_user_id r = creator_id data
         ∨ sub_user_id r ∈ accepted_user_ids data).
Proof.
  destruct op as [new_id creator payload|b u|b u|b u m|b u c]; simpl.
  - destruct (create_user_battle_cases d now new_id creator payload s)
      as (_ & -> & _). by left.
  - destruct (accept_battle_cases now b u s) as (_ & -> & _). by left.
  - unfold decline_battle. left.
    destruct (_load_acceptance_lists b s); [|done]. by destruct (decide _).
  - unfold upload_battle_submission, _load_acceptance_lists.
    destruct (battles s !! b) as [data|] eqn:Hb; [|by left].
    destruct (decide _) as [Hno|Hok]; [by left|].
    destruct m as [[|a url]|]; [by left| |by left].
    assert (u = creator_id data ∨ u ∈ accepted_user_ids data) as Hu.
    { destruct (decide (u = creator_id data)); [by left|right].
      destruct (decide (u ∈ accepted_user_ids data)); [done|].
      exfalso. apply Hok. split; [done|]. by rewrite elem_of_list_to_set. }
    destruct (_ <=? _)%nat; cbn [snd];
      rewrite ?notify_each_submissions;
      cbn [battle_submissions update_battle];
      intros [->|Hr]%elem_of_upsert_submission; try (by left);
      right; exists data; by cbn [sub_battle_id sub_user_id].
  - destruct (vote_battle_cases now b u c s) as (_ & -> & _). by left.
Qed.

Lemma step_submissions_by_participants d now op s :
  submissions_by_participants s →
  submissions_by_participants (step d now op s).2.
Proof.
  intros Hs r Hr.
  assert (∃ battle,
            battles s !! sub_battle_id r = Some battle
            ∧ (sub_user_id r = creator_id battle
               ∨ sub_user_id r ∈ accepted_user_ids battle))
    as (battle & Hb & Hu).
  { destruct (step_submissions d now op s r Hr) as [Hin|Hnew]; [|done].
    by apply Hs. }
  destruct (step_keeps_involved d now op s _ battle Hb)
    as (b' & Hb' & Hc & _ & _ & Ha).
  exists b'. split; [done|]. rewrite Hc.
  destruct Hu as [?|Hin]; [by left|right; by apply Ha].
Qed.

(** X21. Only participants ever have a submission: after any sequence of
    requests on an empty store, the users with a submission for a battle
    are among its creator and its accepted users. *)
Theorem submitters_are_participants d ops battle_id battle :
  battles (run d ops empty_store) !! battle_id = Some battle →
  submitters battle_id (run d ops empty_store) ⊆ required_submitters battle.
Proof.
  intros Hb.
  assert (submissions_by_participants (run d ops empty_store)) as Hs.
  { unfold run. apply (foldl_invariant submissions_by_participants).
    - intros st [now op] Hst. by apply step_submissions_by_participants.
    - intros r. simpl. by intros ?%elem_of_nil. }
  intros u. unfold submitters, submissions_of, required_submitters.
  rewrite elem_of_list_to_set, list_elem_of_fmap.
  intros (r & -> & [Hid Hr]%list_elem_of_filter).
  destruct (Hs r Hr) as (b' & Hb' & Hu).
  rewrite Hid, Hb in Hb'. injection Hb' as <-.
  rewrite elem_of_union, elem_of_list_to_set, elem_of_singleton. tauto.
Qed.

Lemma live_multi_lookup :
  battles (run (Some ∅) live_multi_ops empty_store) !! "b"
  = Some live_multi_row.
Proof. vm_compute. reflexivity. Qed.

Lemma submitters_are_participants_witness :
  submitters "b" (run (Some ∅) live_multi_ops empty_store)
  ⊆ required_submitters live_multi_row.
Proof.
  exact (submitters_are_participants (Some ∅) live_multi_ops "b"
           live_multi_row live_multi_lookup).
Defined.

Lemma accept_battle_row now battle_id uid s k row :
  battles s !! k = Some row →
  ∃ row',
    battles (accept_battle now battle_id uid s).2 !! k = Some row'
    ∧ start_time row' = start_time row ∧ end_time row' = end_time row
    ∧ (status row' = status row ∨ status row' = CANCELLED
       ∨ status row' = INVITED ∨ status row' = UPLOADING).
Proof.
  intros Hk.
  destruct (battles s !! battle_id) as [data|] eqn:Hb.
  2:{ unfold accept_battle, _load_acceptance_lists. rewrite Hb.
      exists row. by repeat split; auto. }
  destruct (deadline_passed now (accept_deadline data)) eqn:Hd.
  { unfold accept_battle, _load_acceptance_lists. rewrite Hb, Hd.
    cbn [snd battles notify_user update_battle].
    destruct (decide (battle_id = k)) as [->|Hne].
    - rewrite lookup_alter_eq, Hk. eexists. split; [done|].
      cbn [start_time end_time status set_status]. auto.
    - rewrite lookup_alter_ne by done. exists row. auto. }
  destruct (decide (uid ∈ invited_user_ids data)) as [Hinv|Hinv].
  2:{ unfold accept_battle, _load_acceptance_lists. rewrite Hb, Hd.
      rewrite decide_True by (by rewrite elem_of_list_to_set).
      exists row. auto. }
  destruct (decide (uid ∈ accepted_user_ids data)) as [Hin|Hin].
  { unfold accept_battle, _load_acceptance_lists. rewrite Hb, Hd.
    rewrite decide_False by (rewrite elem_of_list_to_set; tauto).
    rewrite decide_True by (by rewrite elem_of_list_to_set).
    exists row. auto. }
  destruct (accept_battle_new now battle_id uid s data Hb Hd Hinv Hin)
    as (s' & -> & Hbat & _).
  cbn [snd]. rewrite Hbat.
  destruct (decide (battle_id = k)) as [->|Hne].
  - rewrite lookup_insert_eq. eexists. split; [done|].
    assert (data = row) as -> by congruence.
    cbn [start_time end_time status set_accepted].
    split; [done|]. split; [done|].
    destruct (_threshold_met _ _); [right; right; right|right; right; left];
      done.
  - rewrite lookup_insert_ne by done. exists row. auto.
Qed.

Lemma step_times_well_formed d now op s :
  (∀ k row, battles s !! k = Some row → times_well_formed row) →
  ∀ k row, battles (step d now op s).2 !! k = Some row → times_well_formed row.
Proof.
  intros Hs k row.
  assert (∀ f m,
            (∀ b, times_well_formed b → times_well_formed (f b)) →
            ∀ j, m = alter f j (battles s) →
            m !! k = Some row → times_well_formed row) as Halter.
  { intros f m Hf j ->. destruct (decide (j = k)) as [->|Hne].
    - rewrite lookup_alter_eq.
      destruct (battles s !! k) as [b|] eqn:Hb; [|done].
      intros [= <-]. by apply Hf, (Hs k).
    - rewrite lookup_alter_ne by done. apply Hs. }
  destruct op as [new_id creator payload|b u|b u|b u m|b u c]; simpl.
  - unfold create_user_battle.
    destruct (UserBattleCreate_errors payload); [|apply Hs].
    destruct (battles s !! new_id); [apply Hs|].
    cbn [snd]. rewrite notify_each_battles. cbn [battles].
    destruct (decide (new_id = k)) as [->|Hne].
    + rewrite lookup_insert_eq. intros [= <-]. by repeat split.
    + rewrite lookup_insert_ne by done. apply Hs.
  - intros Hrow.
    destruct (battles s !! k) as [row0|] eqn:Hk.
    + destruct (accept_battle_row now b u s k row0 Hk)
        as (row' & Hrow' & Ht & He & Hst).
      rewrite Hrow in Hrow'. injection Hrow' as <-.
      destruct (Hs k row0 Hk) as (H1 & H2 & H3).
      unfold times_well_formed. rewrite Ht, He.
      split; [|split; [|done]].
      * destruct Hst as [-> | [-> | [-> | ->]]]; done.
      * destruct Hst as [-> | [-> | [-> | ->]]]; done.
    + exfalso.
      destruct (accept_battle_cases now b u s)
        as (_ & _ & [Hsame|[Hc|(data & st & Hd & _ & Hins)]]).
      * rewrite Hsame in Hrow. congruence.
      * rewrite Hc in Hrow. apply lookup_alter_Some in Hrow.
        destruct Hrow as [(_ & y & Hy & _)|[_ Hy]]; congruence.
      * rewrite Hins in Hrow. apply lookup_insert_Some in Hrow.
        destruct Hrow as [[<- _]|[_ Hy]]; congruence.
  - unfold decline_battle.
    destruct (_load_acceptance_lists b s); [|apply Hs].
    destruct (decide _); apply Hs.
  - destruct (upload_battle_submission_cases now b u m s) as (_ & [->|Hs']);
      [apply Hs|].
    apply (Halter (set_live LIVE now (now + timedelta_hours 24)) _
             (λ _ _, ltac:(by repeat split)) b Hs').
  - destruct (vote_battle_cases now b u c s) as (_ & _ & [->|(counts & Hs')]);
      [apply Hs|].
    apply (Halter (set_vote_counts counts) _ (λ _ H, H) b Hs').
Qed.

(** X22. No request of the battle flow ends a battle. After any sequence
    of requests on an empty store no battle is ENDED, a battle that is
    LIVE has its end time, and start and end time are either both unset or
    both set. *)
Theorem battles_never_end d ops battle_id battle :
  battles (run d ops empty_store) !! battle_id = Some battle →
  status battle ≠ ENDED
  ∧ (status battle = LIVE → is_Some (end_time battle))
  ∧ (is_Some (start_time battle) ↔ is_Some (end_time battle)).
Proof.
  revert battle_id battle.
  change (∀ k row, battles (run d ops empty_store) !! k = Some row
                   → times_well_formed row).
  unfold run.
  apply (foldl_invariant
           (λ s, ∀ k row, battles s !! k = Some row → times_well_formed row)).
  - intros st [now op] Hst. by apply step_times_well_formed.
  - intros k row. simpl. by rewrite lookup_empty.
Qed.

Lemma battles_never_end_witness :
  status live_multi_row ≠ ENDED
  ∧ (status live_multi_row = LIVE → is_Some (end_time live_multi_row))
  ∧ (is_Some (start_time live_multi_row)
     ↔ is_Some (end_time live_multi_row)).
Proof.
  exact (battles_never_end (Some ∅) live_multi_ops "b" live_multi_row
           live_multi_lookup).
Defined.

Lemma disconnect_idempotent_witness :
  let m := connect 1%positive "b" "anonymous" new_manager in
  disconnect 1%positive "b" "anonymous" (disconnect 1%positive "b" "anonymous" m)
  = disconnect 1%positive "b" "anonymous" m.
Proof.
  intros m. apply (disconnect_idempotent 1%positive "b" "anonymous" m).
Defined.

Lemma mark_all_read_marks_own_only_witness :
  get_notifications "c" None (mark_all_read "u" sample_1v1)
  = get_notifications "c" None sample_1v1.
Proof.
  by apply (mark_all_read_marks_own_only "u" None sample_1v1).
Defined.
